(** * A shallow embedding of the Archivist client

    The development follows the Python sources:

    - [archivist/constants.py]  : string constants;
    - [archivist/archivist.py]  : class [Archivist] (constructor, the [auth]
      property, [_add_headers], and the REST verbs [post], [post_file],
      [delete], [patch]);
    - [archivist/locations.py]  : class [Location] and [_LocationsClient].

    Python objects that are mutated in place ([self], the [requests] session,
    the dictionaries handed over by a caller) live in an explicit state that
    every method threads through a small state-and-exception monad.

    Conventions of the model:
    - time is a [Z] number of seconds read from a simulated clock (the
      rounding of Python floats is not modelled);
    - strings are byte strings, and the character classes of Python are
      taken on the ASCII range;
    - a JSON number is an integer;
    - the values inside a dictionary are stored by value: only top-level
      dictionaries are objects with an identity, which is all that the
      modelled code mutates. *)

From Stdlib Require Import ZArith Lia Ascii String.
From stdpp Require Import base option list gmap strings.

#[local] Set Warnings "-register-all".
#[local] Open Scope string_scope.
#[local] Open Scope Z_scope.

(** ** JSON-compatible values and dictionaries *)

Inductive value : Type :=
  | VNone
  | VBool (b : bool)
  | VNum (z : Z)
  | VStr (s : string)
  | VList (l : list value)
  | VDict (d : gmap string value).

(** A Python [dict] with string keys. *)
Abbreviation Dict := (gmap string value).

(** [locations.Location] is a [dict] subclass without attributes of its own. *)
Abbreviation Location := (gmap string value).

(** [x is None] *)
Definition is_None (v : value) : bool :=
  match v with VNone => true | _ => false end.

(** [d.get(k)] : the value under [k], or [None]. *)
Definition dict_get (d : Dict) (k : string) : value :=
  match d !! k with Some v => v | None => VNone end.

(** Truth value of an optional dictionary: [None] and [{}] are false. *)
Definition truthy (d : option Dict) : bool :=
  match d with
  | None => false
  | Some m => negb (bool_decide (m = ∅))
  end.

(** ** Strings *)

(** [sep.join(parts)] *)
Fixpoint join (sep : string) (parts : list string) : string :=
  match parts with
  | [] => ""
  | [p] => p
  | p :: rest => p ++ sep ++ join sep rest
  end.

(** [s.endswith(suffix)] *)
Fixpoint endswith (s suffix : string) : bool :=
  String.eqb s suffix
  || match s with
     | EmptyString => false
     | String _ s' => endswith s' suffix
     end.

(** [c.isspace()] on the ASCII range: TAB, LF, VT, FF, CR, the four
    separators FS, GS, RS, US, and the space. *)
Definition isspace (c : ascii) : bool :=
  let n := nat_of_ascii c in
  ((9 <=? n)%nat && (n <=? 13)%nat)
  || ((28 <=? n)%nat && (n <=? 31)%nat)
  || (n =? 32)%nat.

Fixpoint lstrip (s : string) : string :=
  match s with
  | EmptyString => EmptyString
  | String c s' => if isspace c then lstrip s' else s
  end.

Fixpoint rstrip (s : string) : string :=
  match s with
  | EmptyString => EmptyString
  | String c s' =>
      match rstrip s' with
      | EmptyString => if isspace c then EmptyString else String c EmptyString
      | r => String c r
      end
  end.

(** [s.strip()] *)
Definition strip (s : string) : string := rstrip (lstrip s).

(** ** archivist/constants.py *)

Definition ROOT := "archivist".
Definition SEP := "/".

Definition HEADERS_REQUEST_TOTAL_COUNT := "X-Request-Total-Count".
Definition HEADERS_TOTAL_COUNT := "X-Total-Count".
Definition HEADERS_RETRY_AFTER := "Archivist-Rate-Limit-Reset".

Definition CONFIRMATION_STATUS := "confirmation_status".
Definition CONFIRMATION_PENDING := "PENDING".
Definition CONFIRMATION_FAILED := "FAILED".
Definition CONFIRMATION_CONFIRMED := "CONFIRMED".

Definition LOCATIONS_SUBPATH := "v2".
Definition LOCATIONS_LABEL := "locations".

(** ** Exceptions and the monad *)

Inductive exn : Type :=
  | ArchivistError (msg : string)
  | ArchivistNotFoundError
  | RateLimitError (retry : option Z)
  | ConstraintViolationError
  | PermissionError
  | ServerError
  | ConfirmationTimeoutError
  | ConfirmationFailedError
  | KeyError (key : string)
  | TypeError
  | AttributeError.

(** What running a piece of code gives: a value, a raised exception, or
    [OutOfFuel] when a loop of the model was cut off by its step bound. *)
Inductive outcome (A : Type) : Type :=
  | Ok (a : A)
  | Raise (e : exn)
  | OutOfFuel.
Arguments Ok {A} a.
Arguments Raise {A} e.
Arguments OutOfFuel {A}.

(** A computation over a mutable state [S].  The state is returned in every
    case: what was written before an exception stays written. *)
Definition M (S A : Type) : Type := S -> outcome A * S.

Definition ret {S A} (a : A) : M S A := fun s => (Ok a, s).
Definition raise {S A} (e : exn) : M S A := fun s => (Raise e, s).
Definition bind {S A B} (c : M S A) (k : A -> M S B) : M S B :=
  fun s =>
    match c s with
    | (Ok a, s') => k a s'
    | (Raise e, s') => (Raise e, s')
    | (OutOfFuel, s') => (OutOfFuel, s')
    end.
Definition gets {S A} (f : S -> A) : M S A := fun s => (Ok (f s), s).
Definition modify {S} (f : S -> S) : M S unit := fun s => (Ok tt, f s).
Definition lift_outcome {S A} (o : outcome A) : M S A := fun s => (o, s).

Notation "'let*' x ':=' c 'in' k" := (bind c (fun x => k))
  (at level 10, x name, c at level 100, k at level 200).
Notation "c1 '>>' c2" := (bind c1 (fun _ => c2))
  (at level 100, c2 at level 200, right associativity).

(** [try: c except ...], where [handler] gives the [except] clause that
    matches the exception, if there is one. *)
Definition try_except {S A} (c : M S A) (handler : exn -> option (M S A)) : M S A :=
  fun s =>
    match c s with
    | (Raise e, s') =>
        match handler e with
        | Some h => h s'
        | None => (Raise e, s')
        end
    | other => other
    end.

(** [d[k]] : raises [KeyError] when [k] is absent. *)
Definition getitem (d : Dict) (k : string) : outcome value :=
  match d !! k with Some v => Ok v | None => Raise (KeyError k) end.

(** ** HTTP requests and responses *)

Inductive method : Type := GET | POST | PATCH | DELETE.

(** The body keyword given to the [requests] session. *)
Inductive payload : Type :=
  | NoBody
  | JsonBody (request : option Dict)          (* json=request *)
  | FormBody (request : option Dict)          (* data=request *)
  | Multipart (form : string) (fd : string) (mtype : string).

Record Request : Type := {
  req_method : method;
  req_url : string;
  req_headers : option Dict;      (* [None]: no [headers] keyword at all *)
  req_body : payload;
  req_verify : bool;
  req_params : option Dict;
}.

Record Response : Type := {
  status_code : Z;
  resp_headers : Dict;
  json : value;                   (* [response.json()] *)
}.

(** The network as the client sees it: a simulated clock, the time spent in
    [sleep], and the requests handed to the session, most recent first. *)
Record Net : Type := {
  clock : Z;
  slept : Z;
  sent : list Request;
}.

(** [time()] and [sleep(d)] on a [Net]. *)
Definition advance (d : Z) (n : Net) : Net :=
  {| clock := clock n + d; slept := slept n + d; sent := sent n |}.

(** ** The [Archivist] object *)

(** The [auth] argument of the constructor: [None], a token string or a
    [(client_id, client_secret)] tuple. *)
Inductive auth_arg : Type :=
  | AuthNone
  | AuthToken (token : string)
  | AuthMachine (client_id client_secret : string).

(** The attributes that [Archivist] inherits from [ArchivistPublic]. *)
Record ArchivistPublic : Type := {
  _fixtures : Dict;
  _verify : bool;
  _max_time : Z;
  _response_ring_buffer : list Response;   (* a [deque], leftmost first *)
}.

Record Archivist : Type := {
  inherited :> ArchivistPublic;
  _auth : value;
  _client_id : option string;
  _client_secret : option string;
  _expires_at : Z;
  _url : string;
  _root : string;
}.

(** The mutable state of a run: the client object, the network, and the
    heap of dictionaries that callers pass by reference. *)
Record State : Type := {
  self : Archivist;
  net : Net;
  heap : list Dict;               (* a reference is an index into it *)
}.

Definition set_self (f : Archivist -> Archivist) (st : State) : State :=
  {| self := f (self st); net := net st; heap := heap st |}.
Definition set_net (f : Net -> Net) (st : State) : State :=
  {| self := self st; net := f (net st); heap := heap st |}.
Definition set_heap (f : list Dict -> list Dict) (st : State) : State :=
  {| self := self st; net := net st; heap := f (heap st) |}.

(** Run a computation on the network inside a [State]. *)
Definition on_net {A} (c : M Net A) : M State A :=
  fun st => let '(r, n) := c (net st) in (r, set_net (fun _ => n) st).

(** Run a computation on client and network inside a [State]. *)
Definition on_client {A} (c : M (Archivist * Net) A) : M State A :=
  fun st =>
    let '(r, (a, n)) := c (self st, net st) in
    (r, {| self := a; net := n; heap := heap st |}).

(** [time()] *)
Definition time : M State Z := gets (fun st => clock (net st)).
(** [sleep(d)] *)
Definition sleep (d : Z) : M State unit := modify (set_net (advance d)).

(** ** What the sources import from modules that are not modelled here *)

Record Externals : Type := {
  (** the remote server: its answer to a request, given the requests it has
      received before (most recent first) *)
  serve : list Request -> Request -> Response;
  (** [self.appidp.token(client_id, client_secret)]: the token-fetch call.
      It reads the client and talks to the network. *)
  appidp_token : Archivist -> string -> option string -> M Net Dict;
  (** [maxlen] of the [deque] behind [_response_ring_buffer] *)
  RING_BUFFER_MAX_LEN : nat;
  (** [MultipartEncoder(fields=...).content_type] *)
  multipart_content_type : string -> string -> string -> string;
  (** [dictmerge._dotdict] *)
  _dotdict : option Dict -> option Dict;
  (** [dictmerge._deepmerge] *)
  _deepmerge : value -> Dict -> Dict;
  (** [utils.selector_signature] *)
  selector_signature : value -> Dict -> outcome (option Dict * option Dict);
  (** [ArchivistPublic.get_by_signature(path, field, params=...)] *)
  get_by_signature : string -> string -> Dict -> M (Archivist * Net) value;
  (** the pause of the retry wrapper when the server names none *)
  DEFAULT_BACKOFF : Z;
  (** the pause of the confirmation poller before its next read *)
  poll_interval : nat -> Z;
}.

(** Modelled from the spec: [confirmer.MAX_TIME], the default of the
    constructor's [max_time], is not in the sources; the spec gives 300
    seconds. *)
Definition MAX_TIME : Z := 300.

(** Modelled from the spec: [errors._parse_response] is not in the sources.
    A 2xx status is a success; 404, 429, 401/403, the other 4xx and 5xx map
    to the error kinds of the spec; the retry-after duration of a 429 is read
    from the header [HEADERS_RETRY_AFTER].  Any other status gives the base
    class [ArchivistError]. *)
Definition retry_after (r : Response) : option Z :=
  match resp_headers r !! HEADERS_RETRY_AFTER with
  | Some (VNum z) => Some z
  | _ => None
  end.

Definition _parse_response (r : Response) : option exn :=
  let c := status_code r in
  if (200 <=? c) && (c <? 300) then None
  else if c =? 404 then Some ArchivistNotFoundError
  else if c =? 429 then Some (RateLimitError (retry_after r))
  else if (c =? 401) || (c =? 403) then Some PermissionError
  else if (400 <=? c) && (c <? 500) then Some ConstraintViolationError
  else if 500 <=? c then Some ServerError
  else Some (ArchivistError "unexpected status").

(** [if error is not None: raise error] *)
Definition raise_if {S} (error : option exn) : M S unit :=
  match error with
  | Some e => raise e
  | None => ret tt
  end.

(** [deque.appendleft] on a deque of bounded length: the new element comes
    first and what no longer fits falls off at the right. *)
Definition appendleft {A} (maxlen : nat) (x : A) (buf : list A) : list A :=
  take maxlen (x :: buf).

(** ** archivist/archivist.py : the constructor *)

(** Modelled from the spec: [ArchivistPublic.__init__] is not in the sources;
    it stores its three arguments and starts with an empty ring buffer. *)
Definition ArchivistPublic_init (fixtures : option Dict) (verify : bool)
    (max_time : Z) : M Net ArchivistPublic :=
  ret {| _fixtures := default ∅ fixtures;
         _verify := verify;
         _max_time := max_time;
         _response_ring_buffer := [] |}.

(** [Archivist.__init__(url, auth, fixtures=..., verify=..., max_time=...)] *)
Definition Archivist_init (url : string) (auth : auth_arg)
    (fixtures : option Dict) (verify : bool) (max_time : Z) : M Net Archivist :=
  let* base := ArchivistPublic_init fixtures verify max_time in
  let '(tok, cid, sec) :=
    match auth with
    | AuthMachine c s => (VNone, Some c, Some s)
    | AuthToken t => (VStr t, None, None)
    | AuthNone => (VNone, None, None)
    end in
  if endswith url "/" then
    raise (ArchivistError ("URL " ++ url ++ " has trailing /"))
  else
    ret {| inherited := base;
           _auth := tok;
           _client_id := cid;
           _client_secret := sec;
           _expires_at := 0;
           _url := url;
           _root := join SEP [url; ROOT] |}.


(** Attribute assignments on [self]. *)
Definition with_auth (v : value) (a : Archivist) : Archivist :=
  {| inherited := inherited a; _auth := v; _client_id := _client_id a;
     _client_secret := _client_secret a; _expires_at := _expires_at a;
     _url := _url a; _root := _root a |}.
Definition with_expires_at (t : Z) (a : Archivist) : Archivist :=
  {| inherited := inherited a; _auth := _auth a; _client_id := _client_id a;
     _client_secret := _client_secret a; _expires_at := t;
     _url := _url a; _root := _root a |}.
Definition with_ring_buffer (buf : list Response) (a : Archivist) : Archivist :=
  {| inherited := {| _fixtures := _fixtures a; _verify := _verify a;
                     _max_time := _max_time a;
                     _response_ring_buffer := buf |};
     _auth := _auth a; _client_id := _client_id a;
     _client_secret := _client_secret a; _expires_at := _expires_at a;
     _url := _url a; _root := _root a |}.

(** [a + b] where [a] is a number and [b] comes from a JSON document. *)
Definition add_num (a : Z) (b : value) : outcome Z :=
  match b with
  | VNum z => Ok (a + z)
  | VBool x => Ok (a + Z.b2z x)
  | _ => Raise TypeError
  end.

Section Transport.

Context (X : Externals) (fuel : nat).

(** ** archivist/archivist.py : the [auth] property *)
Definition auth : M State value :=
  let* a := gets self in
  let* now := time in
  let* _ :=
    match _client_id a with
    | Some client_id =>
        if _expires_at a <? now then
          let* apptoken :=
            on_net (appidp_token X a client_id (_client_secret a)) in
          modify (set_self (with_auth (dict_get apptoken "access_token"))) >>
          let* tok := gets (fun st => _auth (self st)) in
          (if is_None tok
           then raise (ArchivistError
                         "Auth token from client id,secret is invalid")
           else ret tt) >>
          let* now' := time in
          let* expires_in := lift_outcome (getitem apptoken "expires_in") in
          let* exp := lift_outcome (add_num now' expires_in) in
          modify (set_self (with_expires_at (exp - 10)))
        else ret tt
    | None => ret tt
    end in
  gets (fun st => _auth (self st)).

(** [Archivist._add_headers] *)
Definition _add_headers (headers : option Dict) : M State Dict :=
  let newheaders := match headers with Some h => h | None => ∅ end in
  let* tok := auth in
  match tok with
  | VNone => ret newheaders
  | VStr s => ret (<["authorization" := VStr ("Bearer " ++ strip s)]> newheaders)
  | _ => raise AttributeError
  end.

(** A call of one of the session's methods: the request goes to the server
    and its response comes back. *)
Definition session_call (req : Request) : M State Response :=
  fun st =>
    let r := serve X (sent (net st)) req in
    (Ok r,
     set_net (fun n => {| clock := clock n; slept := slept n;
                          sent := req :: sent n |}) st).

(** [self._response_ring_buffer.appendleft(response)] *)
Definition record_response (response : Response) : M State unit :=
  modify (set_self (fun a =>
    with_ring_buffer
      (appendleft (RING_BUFFER_MAX_LEN X) response (_response_ring_buffer a))
      a)).

(** ** The 429 retry wrapper *)

(** The state of one wrapped call. *)
Record RetryContext : Type := {
  attempts : nat;
  deadline : Z;
  last_retry_after : option Z;
}.

(** Modelled from the spec: the decorator [retry429.retry_429] is not in the
    sources.  On a [RateLimitError] the wrapper re-raises it when the
    maximum elapsed time is exceeded; otherwise it sleeps for the duration
    the server named (or the default one) and makes the same call again.
    Any other result of the call is the result of the wrapper.  The loop
    has no bound of its own, so the model cuts it off after [fuel] calls. *)
Fixpoint retry_loop {A} (n : nat) (ctx : RetryContext) (call : M State A)
    : M State A :=
  match n with
  | O => lift_outcome OutOfFuel
  | S n' =>
      try_except call (fun e =>
        match e with
        | RateLimitError retry => Some (
            let* now := time in
            if deadline ctx <? now then raise (RateLimitError retry)
            else
              sleep (default (DEFAULT_BACKOFF X) retry) >>
              retry_loop n'
                {| attempts := S (attempts ctx);
                   deadline := deadline ctx;
                   last_retry_after := retry |}
                call)
        | _ => None
        end)
  end.

Definition retry_429 {A} (call : M State A) : M State A :=
  let* max_time := gets (fun st => _max_time (self st)) in
  let* now := time in
  retry_loop fuel
    {| attempts := 0; deadline := now + max_time; last_retry_after := None |}
    call.

(** ** archivist/archivist.py : the REST verbs

    For a method [m] decorated with [@retry_429], [m_call] is the method as
    written and [m] is the decorated one. *)

Definition post_call (url : string) (request : option Dict)
    (headers : option Dict) (data : bool) : M State value :=
  let* response :=
    if data then
      let* verify := gets (fun st => _verify (self st)) in
      session_call {| req_method := POST; req_url := url;
                      req_headers := None; req_body := FormBody request;
                      req_verify := verify; req_params := None |}
    else
      let* newheaders := _add_headers headers in
      let* verify := gets (fun st => _verify (self st)) in
      session_call {| req_method := POST; req_url := url;
                      req_headers := Some newheaders;
                      req_body := JsonBody request;
                      req_verify := verify; req_params := None |} in
  raise_if (_parse_response response) >>
  ret (json response).

Definition post (url : string) (request : option Dict)
    (headers : option Dict) (data : bool) : M State value :=
  retry_429 (post_call url request headers data).

Definition post_file_call (url : string) (fd : string) (mtype : string)
    (form : string) (params : option Dict) : M State value :=
  let headers : Dict :=
    {[ "content-type" := VStr (multipart_content_type X form fd mtype) ]} in
  let* newheaders := _add_headers (Some headers) in
  let* verify := gets (fun st => _verify (self st)) in
  let* response :=
    session_call {| req_method := POST; req_url := url;
                    req_headers := Some newheaders;
                    req_body := Multipart form fd mtype;
                    req_verify := verify;
                    req_params := _dotdict X params |} in
  record_response response >>
  raise_if (_parse_response response) >>
  ret (json response).

Definition post_file (url : string) (fd : string) (mtype : string)
    (form : string) (params : option Dict) : M State value :=
  retry_429 (post_file_call url fd mtype form params).

Definition delete_call (url : string) (headers : option Dict) : M State value :=
  let* newheaders := _add_headers headers in
  let* verify := gets (fun st => _verify (self st)) in
  let* response :=
    session_call {| req_method := DELETE; req_url := url;
                    req_headers := Some newheaders; req_body := NoBody;
                    req_verify := verify; req_params := None |} in
  record_response response >>
  raise_if (_parse_response response) >>
  ret (json response).

Definition delete (url : string) (headers : option Dict) : M State value :=
  retry_429 (delete_call url headers).

Definition patch_call (url : string) (request : Dict)
    (headers : option Dict) : M State value :=
  let* newheaders := _add_headers headers in
  let* verify := gets (fun st => _verify (self st)) in
  let* response :=
    session_call {| req_method := PATCH; req_url := url;
                    req_headers := Some newheaders;
                    req_body := JsonBody (Some request);
                    req_verify := verify; req_params := None |} in
  record_response response >>
  raise_if (_parse_response response) >>
  ret (json response).

Definition patch (url : string) (request : Dict)
    (headers : option Dict) : M State value :=
  retry_429 (patch_call url request headers).

(** Modelled from the spec: [ArchivistPublic.get] is not in the sources.
    It is the transport call of the spec for the verb GET: bearer header,
    response recorded in the ring buffer, typed error or JSON body; and it
    is wrapped by the retry wrapper like every transport call. *)
Definition get_call (url : string) (headers : option Dict) : M State value :=
  let* newheaders := _add_headers headers in
  let* verify := gets (fun st => _verify (self st)) in
  let* response :=
    session_call {| req_method := GET; req_url := url;
                    req_headers := Some newheaders; req_body := NoBody;
                    req_verify := verify; req_params := None |} in
  record_response response >>
  raise_if (_parse_response response) >>
  ret (json response).

Definition get (url : string) (headers : option Dict) : M State value :=
  retry_429 (get_call url headers).

(** ** archivist/locations.py *)

(** [Location] from the keyword arguments that unpacking [v] gives: [v] has
    to be a mapping. *)
Definition Location_kwargs (v : value) : outcome Location :=
  match v with
  | VDict d => Ok d
  | _ => Raise TypeError
  end.

(** The property [Location.name]. *)
Definition name (this : Location) : outcome value :=
  let name := VNone in
  match getitem this "display_name" with
  | Ok v => Ok v
  | Raise (KeyError _) => Ok name
  | other => other
  end.

(** [_LocationsClient]; its attribute [_archivist] is the client object of
    the state. *)
Record _LocationsClient : Type := {
  _subpath : string;
  _label : string;
}.

Definition LocationsClient_init (archivist : Archivist) : _LocationsClient :=
  let subpath := _root archivist ++ "/" ++ LOCATIONS_SUBPATH in
  {| _subpath := subpath; _label := subpath ++ "/" ++ LOCATIONS_LABEL |}.

Definition _LocationsClient__params (props attrs : option Dict) : M State Dict :=
  let params : Dict := if truthy props then default ∅ props else ∅ in
  let params : Dict :=
    if truthy attrs then <["attributes" := VDict (default ∅ attrs)]> params
    else params in
  let* fixtures := gets (fun st => _fixtures (self st)) in
  ret (_deepmerge X (dict_get fixtures LOCATIONS_LABEL) params).

Definition create_from_data (c : _LocationsClient) (data : Dict) : M State Location :=
  let* body := post (_label c) (Some data) None false in
  lift_outcome (Location_kwargs body).

Definition create (c : _LocationsClient) (props : Dict) (attrs : option Dict)
    : M State Location :=
  let* data := _LocationsClient__params (Some props) attrs in
  create_from_data c data.

Definition read (c : _LocationsClient) (identity : string) : M State Location :=
  let* body := get (_subpath c ++ "/" ++ identity) None in
  lift_outcome (Location_kwargs body).

Definition read_by_signature (c : _LocationsClient) (props attrs : option Dict)
    : M State Location :=
  let* params := _LocationsClient__params props attrs in
  let* body :=
    on_client (get_by_signature X (_label c) LOCATIONS_LABEL params) in
  lift_outcome (Location_kwargs body).

(** Dictionaries passed by reference.  A reference that a caller holds
    points into the heap; one that does not reads as the empty dictionary. *)
Definition deref (ref : nat) : M State Dict :=
  gets (fun st => default ∅ (heap st !! ref)).

(** [deepcopy(data)] : a new object with the same content. *)
Definition deepcopy (ref : nat) : M State nat :=
  let* d := deref ref in
  let* new := gets (fun st => length (heap st)) in
  modify (set_heap (fun h => (h ++ [d])%list)) >>
  ret new.

(** [data.pop(key)] : removes the key from the object and returns its value;
    [KeyError] when it is absent. *)
Definition dict_pop (ref : nat) (key : string) : M State value :=
  let* d := deref ref in
  let* v := lift_outcome (getitem d key) in
  let d' : Dict := base.delete key d in
  modify (set_heap (fun h => <[ref := d']> h)) >>
  ret v.

Definition create_if_not_exists (c : _LocationsClient) (data : nat)
    : M State (Location * bool) :=
  let* data := deepcopy data in
  let* selector := dict_pop data "selector" in
  let* d := deref data in
  let* signature := lift_outcome (selector_signature X selector d) in
  let* found :=
    try_except
      (let* location := read_by_signature c signature.1 signature.2 in
       ret (Some location))
      (fun e =>
         match e with
         | ArchivistNotFoundError => Some (ret None)
         | _ => None
         end) in
  match found with
  | Some location => ret (location, true)
  | None =>
      let* d := deref data in
      let* created := create_from_data c d in
      ret (created, false)
  end.

(** ** The confirmation poller *)

(** Modelled from the spec: [wait_for_confirmation] is not in the sources.
    It reads the entity until its confirmation status leaves PENDING:
    CONFIRMED returns the entity, FAILED raises [ConfirmationFailedError].
    After a PENDING read it pauses, and raises [ConfirmationTimeoutError]
    instead of reading again once the deadline has passed.  A status that
    is none of the three is not covered by the spec; the model raises
    [ArchivistError].  The loop is cut off after [fuel] reads. *)
Fixpoint poll_loop (n attempt : nat) (deadline : Z) (read_entity : M State Dict)
    : M State Dict :=
  match n with
  | O => lift_outcome OutOfFuel
  | S n' =>
      let* entity := read_entity in
      match entity !! CONFIRMATION_STATUS with
      | Some (VStr status) =>
          if String.eqb status CONFIRMATION_CONFIRMED then ret entity
          else if String.eqb status CONFIRMATION_FAILED then
            raise ConfirmationFailedError
          else if String.eqb status CONFIRMATION_PENDING then
            sleep (poll_interval X attempt) >>
            let* now := time in
            if deadline <? now then raise ConfirmationTimeoutError
            else poll_loop n' (S attempt) deadline read_entity
          else raise (ArchivistError "unknown confirmation status")
      | _ => raise (ArchivistError "unknown confirmation status")
      end
  end.

Definition wait_for_confirmation (read_entity : string -> M State Dict)
    (identity : string) (timeout : option Z) : M State Dict :=
  let* max_time := gets (fun st => _max_time (self st)) in
  let* now := time in
  poll_loop fuel 0 (now + default max_time timeout) (read_entity identity).

End Transport.

(** ** archivist/archivist.py : the remaining members of [Archivist] *)

(** [Archivist.__str__] *)
Definition Archivist_str (a : Archivist) : string :=
  "Archivist(" ++ _url a ++ ")".

(** The properties [public], [url] and [root]. *)
Definition Archivist_public (a : Archivist) : bool := false.
Definition Archivist_url (a : Archivist) : string := _url a.
Definition Archivist_root (a : Archivist) : string := _root a.

(** The constructor call of [__copy__].  Its [auth] argument is the value
    that the [auth] property returned, which is never a tuple: the
    constructor takes its second branch and stores the value as it is. *)
Definition Archivist_of_token (url : string) (tok : value)
    (fixtures : option Dict) (verify : bool) (max_time : Z) : M Net Archivist :=
  match tok with
  | VNone => Archivist_init url AuthNone fixtures verify max_time
  | VStr s => Archivist_init url (AuthToken s) fixtures verify max_time
  | other =>
      let* a := Archivist_init url AuthNone fixtures verify max_time in
      ret (with_auth other a)
  end.

(** [Archivist.__copy__]: the arguments are evaluated from left to right,
    the [auth] property among them, and handed to the constructor. *)
Definition Archivist_copy (X : Externals) : M State Archivist :=
  let* url := gets (fun st => _url (self st)) in
  let* tok := auth X in
  let* fixtures := gets (fun st => _fixtures (self st)) in
  let* verify := gets (fun st => _verify (self st)) in
  let* max_time := gets (fun st => _max_time (self st)) in
  on_net (Archivist_of_token url tok (Some fixtures) verify max_time).

(** [_LocationsClient.__str__]; the client's [_archivist] is the client
    object of the state. *)
Definition LocationsClient_str : M State string :=
  let* url := gets (fun st => Archivist_url (self st)) in
  ret ("LocationsClient(" ++ url ++ ")").

(** ** Mock servers and clients for running the model *)

(** Externals around a given server: no token service, a ring buffer of ten
    responses, helpers that leave their argument as it is, and a lookup by
    signature that finds nothing. *)
Definition externals_of (srv : list Request -> Request -> Response) : Externals :=
  {| serve := srv;
     appidp_token := fun _ _ _ => raise PermissionError;
     RING_BUFFER_MAX_LEN := 10;
     multipart_content_type := fun _ _ _ => "multipart/form-data";
     _dotdict := fun p => p;
     _deepmerge := fun _ d => d;
     selector_signature := fun _ _ => Ok (None, None);
     get_by_signature := fun _ _ _ => raise ArchivistNotFoundError;
     DEFAULT_BACKOFF := 1;
     poll_interval := fun _ => 1 |}.

Definition response_ok (body : value) : Response :=
  {| status_code := 200; resp_headers := ∅; json := body |}.

(** A server that answers every request with 200 and the same body. *)
Definition constant_server (body : value) : list Request -> Request -> Response :=
  fun _ _ => response_ok body.

Definition net0 : Net := {| clock := 1000; slept := 0; sent := [] |}.

(** The client that [Archivist("https://app.rkvst.io", "tok")] builds. *)
Definition token_client : Archivist :=
  {| inherited := {| _fixtures := ∅; _verify := true; _max_time := MAX_TIME;
                     _response_ring_buffer := [] |};
     _auth := VStr "tok"; _client_id := None; _client_secret := None;
     _expires_at := 0; _url := "https://app.rkvst.io";
     _root := "https://app.rkvst.io/archivist" |}.

Definition token_state : State :=
  {| self := token_client; net := net0; heap := [] |}.

(** The client that [Archivist("https://app.rkvst.io", ("id", "secret"))]
    builds, with a token "tok" already fetched that expires at [expires]. *)
Definition machine_client (expires : Z) : Archivist :=
  {| inherited := {| _fixtures := ∅; _verify := true; _max_time := MAX_TIME;
                     _response_ring_buffer := [] |};
     _auth := VStr "tok"; _client_id := Some "id";
     _client_secret := Some "secret";
     _expires_at := expires; _url := "https://app.rkvst.io";
     _root := "https://app.rkvst.io/archivist" |}.

Definition machine_state (expires : Z) : State :=
  {| self := machine_client expires; net := net0; heap := [] |}.

(** A token service that takes [latency] seconds to hand out the token
    "fresh", valid for [expires_in] seconds. *)
Definition token_service (latency expires_in : Z)
    : Archivist -> string -> option string -> M Net Dict :=
  fun _ _ _ n =>
    (Ok (<["access_token" := VStr "fresh"]>
           (<["expires_in" := VNum expires_in]> ∅)),
     {| clock := clock n + latency; slept := slept n; sent := sent n |}).

Definition with_appidp_token
    (f : Archivist -> string -> option string -> M Net Dict) (X : Externals)
    : Externals :=
  {| serve := serve X;
     appidp_token := f;
     RING_BUFFER_MAX_LEN := RING_BUFFER_MAX_LEN X;
     multipart_content_type := multipart_content_type X;
     _dotdict := _dotdict X;
     _deepmerge := _deepmerge X;
     selector_signature := selector_signature X;
     get_by_signature := get_by_signature X;
     DEFAULT_BACKOFF := DEFAULT_BACKOFF X;
     poll_interval := poll_interval X |}.

(** Externals with the token service above and a server that answers every
    request with 200 and an empty mapping. *)
Definition machine_externals (latency expires_in : Z) : Externals :=
  with_appidp_token (token_service latency expires_in)
    (externals_of (constant_server (VDict ∅))).

(** A server that answers a POST with a location named "a" and a GET with a
    location named "b", both under the identity "locations/1". *)
Definition location_named (display_name : string) : Dict :=
  <["identity" := VStr "locations/1"]>
    (<["display_name" := VStr display_name]> ∅).

Definition mismatch_server : list Request -> Request -> Response :=
  fun _ req =>
    match req_method req with
    | GET => response_ok (VDict (location_named "b"))
    | _ => response_ok (VDict (location_named "a"))
    end.

(** The locations client of [token_client]. *)
Definition token_locations : _LocationsClient :=
  LocationsClient_init token_client.

(** A request body for [create_if_not_exists], and a state in which the
    caller holds it under reference 0. *)
Definition selector_data : Dict :=
  <["selector" := VList [VStr "display_name"]]>
    (<["display_name" := VStr "Macclesfield"]> ∅).

Definition selector_state : State :=
  {| self := token_client; net := net0; heap := [selector_data] |}.

(** The mock server of the retry property: 429 with a retry-after of
    [retry] seconds for the first [N] requests, then 200 with [body]. *)
Definition response_429 (retry : Z) : Response :=
  {| status_code := 429;
     resp_headers := {[ HEADERS_RETRY_AFTER := VNum retry ]};
     json := VNone |}.

Definition throttling_server (N : nat) (retry : Z) (body : value)
    : list Request -> Request -> Response :=
  fun received _ =>
    if (length received <? N)%nat then response_429 retry
    else response_ok body.

(** The mock server of the confirmation property: the entity comes back as
    PENDING for the first [K] requests and as CONFIRMED afterwards. *)
Definition with_status (status : string) (entity : Dict) : Dict :=
  <[CONFIRMATION_STATUS := VStr status]> entity.

Definition confirming_server (K : nat) (entity : Dict)
    : list Request -> Request -> Response :=
  fun received _ =>
    if (length received <? K)%nat
    then response_ok (VDict (with_status CONFIRMATION_PENDING entity))
    else response_ok (VDict (with_status CONFIRMATION_CONFIRMED entity)).

(** [token_client] with another [max_time]. *)
Definition token_state_max_time (max_time : Z) : State :=
  {| self :=
       {| inherited := {| _fixtures := ∅; _verify := true;
                          _max_time := max_time;
                          _response_ring_buffer := [] |};
          _auth := VStr "tok"; _client_id := None; _client_secret := None;
          _expires_at := 0; _url := "https://app.rkvst.io";
          _root := "https://app.rkvst.io/archivist" |};
     net := net0; heap := [] |}.

(** Token services that answer badly: with a mapping that has no
    "access_token", with one that has no "expires_in", and with an error. *)
Definition token_service_no_token
    : Archivist -> string -> option string -> M Net Dict :=
  fun _ _ _ => ret (<["expires_in" := VNum 3600]> ∅).

Definition token_service_no_expiry
    : Archivist -> string -> option string -> M Net Dict :=
  fun _ _ _ => ret (<["access_token" := VStr "fresh"]> ∅).

Definition token_service_down
    : Archivist -> string -> option string -> M Net Dict :=
  fun _ _ _ => raise ServerError.

(** A server that answers every request with the status [code]. *)
Definition status_server (code : Z) : list Request -> Request -> Response :=
  fun _ _ => {| status_code := code; resp_headers := ∅; json := VNone |}.

(** Externals whose lookup by signature fails with [e]. *)
Definition with_get_by_signature
    (f : string -> string -> Dict -> M (Archivist * Net) value)
    (X : Externals) : Externals :=
  {| serve := serve X;
     appidp_token := appidp_token X;
     RING_BUFFER_MAX_LEN := RING_BUFFER_MAX_LEN X;
     multipart_content_type := multipart_content_type X;
     _dotdict := _dotdict X;
     _deepmerge := _deepmerge X;
     selector_signature := selector_signature X;
     get_by_signature := f;
     DEFAULT_BACKOFF := DEFAULT_BACKOFF X;
     poll_interval := poll_interval X |}.


(** A request body without selector, held under reference 0. *)
Definition no_selector_state : State :=
  {| self := token_client; net := net0;
     heap := [ <["display_name" := VStr "Macclesfield"]> ∅ ] |}.

(** ** Vocabulary of the statements *)

(** A token that [_add_headers] accepts: a string or [None]. *)
Definition str_or_none (tok : value) : Prop :=
  tok = VNone \/ exists s, tok = VStr s.

(** The request body that the locations client builds from properties and
    attributes. *)
Definition location_params (X : Externals) (a : Archivist)
    (props attrs : option Dict) : Dict :=
  let params : Dict := if truthy props then default ∅ props else ∅ in
  let params : Dict :=
    if truthy attrs then <["attributes" := VDict (default ∅ attrs)]> params
    else params in
  _deepmerge X (dict_get (_fixtures a) LOCATIONS_LABEL) params.

(** The transport calls that the client offers, each with its arguments. *)
Inductive transport_call : Type :=
  | Post (url : string) (request headers : option Dict) (data : bool)
  | PostFile (url fd mtype form : string) (params : option Dict)
  | Delete (url : string) (headers : option Dict)
  | Patch (url : string) (request : Dict) (headers : option Dict)
  | Get (url : string) (headers : option Dict).

(** A transport call as the method is written, without the decorator. *)
Definition call_once (X : Externals) (t : transport_call) : M State value :=
  match t with
  | Post url request headers data => post_call X url request headers data
  | PostFile url fd mtype form params =>
      post_file_call X url fd mtype form params
  | Delete url headers => delete_call X url headers
  | Patch url request headers => patch_call X url request headers
  | Get url headers => get_call X url headers
  end.

(** A transport call through the decorated method. *)
Definition call_wrapped (X : Externals) (fuel : nat) (t : transport_call)
    : M State value :=
  match t with
  | Post url request headers data => post X fuel url request headers data
  | PostFile url fd mtype form params =>
      post_file X fuel url fd mtype form params
  | Delete url headers => delete X fuel url headers
  | Patch url request headers => patch X fuel url request headers
  | Get url headers => get X fuel url headers
  end.

(** A client with a plain token: no client id, and a token that is a string
    or [None]. *)
Definition plain_client (a : Archivist) : Prop :=
  _client_id a = None /\ str_or_none (_auth a).



(** The state after a successful refresh of the token: the token [tok] and
    its expiry instant are stored, the network is as the token service left
    it. *)
Definition refreshed (st : State) (tok : value) (n1 : Net) (e : Z) : State :=
  {| self := with_expires_at (clock n1 + e - 10) (with_auth tok (self st));
     net := n1;
     heap := heap st |}.

(** The state after [req] has been handed to the session. *)
Definition log_request (req : Request) (st : State) : State :=
  set_net (fun n => {| clock := clock n; slept := slept n;
                       sent := req :: sent n |}) st.

(** The state after [response] has been put into the ring buffer. *)
Definition keep_response (X : Externals) (response : Response) (st : State)
    : State :=
  set_self (fun a =>
    with_ring_buffer
      (appendleft (RING_BUFFER_MAX_LEN X) response (_response_ring_buffer a))
      a) st.

(** What a verb makes of a response: the typed error or the JSON body. *)
Definition outcome_of (response : Response) : outcome value :=
  match _parse_response response with
  | Some e => Raise e
  | None => Ok (json response)
  end.

(** The headers that [_add_headers] builds around the token [tok]. *)
Definition bearer_headers (tok : value) (headers : option Dict) : Dict :=
  match tok with
  | VStr s =>
      <["authorization" := VStr ("Bearer " ++ strip s)]> (default ∅ headers)
  | _ => default ∅ headers
  end.

(** The request of a POST in JSON mode. *)
Definition json_post_request (url : string) (request : option Dict)
    (newheaders : Dict) (verify : bool) : Request :=
  {| req_method := POST; req_url := url; req_headers := Some newheaders;
     req_body := JsonBody request; req_verify := verify; req_params := None |}.

(** The request of a POST in form-encoded mode. *)
Definition form_post_request (url : string) (request : option Dict)
    (verify : bool) : Request :=
  {| req_method := POST; req_url := url; req_headers := None;
     req_body := FormBody request; req_verify := verify; req_params := None |}.

Definition post_file_request (X : Externals) (url fd mtype form : string)
    (params : option Dict) (newheaders : Dict) (verify : bool) : Request :=
  {| req_method := POST; req_url := url; req_headers := Some newheaders;
     req_body := Multipart form fd mtype; req_verify := verify;
     req_params := _dotdict X params |}.

Definition delete_request (url : string) (newheaders : Dict) (verify : bool)
    : Request :=
  {| req_method := DELETE; req_url := url; req_headers := Some newheaders;
     req_body := NoBody; req_verify := verify; req_params := None |}.

Definition patch_request (url : string) (request : Dict) (newheaders : Dict)
    (verify : bool) : Request :=
  {| req_method := PATCH; req_url := url; req_headers := Some newheaders;
     req_body := JsonBody (Some request); req_verify := verify;
     req_params := None |}.

Definition get_request (url : string) (newheaders : Dict) (verify : bool)
    : Request :=
  {| req_method := GET; req_url := url; req_headers := Some newheaders;
     req_body := NoBody; req_verify := verify; req_params := None |}.

(** A computation that leaves every dictionary of the heap alone. *)
Definition keeps_heap {A} (c : M State A) : Prop :=
  forall st, heap (snd (c st)) = heap st.

(** The state after [create_if_not_exists] has copied the caller's mapping
    [d] and popped the selector from the copy. *)
Definition copied (st : State) (d : Dict) : State :=
  set_heap (fun h => (h ++ [base.delete "selector" d])%list) st.

(** A pair made of the result of a computation and a flag. *)
Definition with_flag {A} (flag : bool) (r : outcome A * State)
    : outcome (A * bool) * State :=
  (match fst r with
   | Ok a => Ok (a, flag)
   | Raise e => Raise e
   | OutOfFuel => OutOfFuel
   end, snd r).

(** A POST in form-encoded mode. *)
Definition is_form (t : transport_call) : bool :=
  match t with
  | Post _ _ _ data => data
  | _ => false
  end.

(** The calls whose method appends the response to the ring buffer. *)
Definition records (t : transport_call) : bool :=
  match t with
  | Post _ _ _ _ => false
  | _ => true
  end.

(** The request that a transport call hands to the session when the [auth]
    property has yielded [tok]. *)
Definition request_of (X : Externals) (t : transport_call) (tok : value)
    (verify : bool) : Request :=
  match t with
  | Post url request headers true => form_post_request url request verify
  | Post url request headers false =>
      json_post_request url request (bearer_headers tok headers) verify
  | PostFile url fd mtype form params =>
      post_file_request X url fd mtype form params
        (bearer_headers tok
           (Some {[ "content-type" :=
                      VStr (multipart_content_type X form fd mtype) ]}))
        verify
  | Delete url headers =>
      delete_request url (bearer_headers tok headers) verify
  | Patch url request headers =>
      patch_request url request (bearer_headers tok headers) verify
  | Get url headers => get_request url (bearer_headers tok headers) verify
  end.

(** The same client but for the responses it has recorded. *)
Definition same_client (a b : Archivist) : Prop :=
  with_ring_buffer [] a = with_ring_buffer [] b.

(** The states in which a client built as [a] is found while it is used:
    right after its construction, on any network and heap; after a
    transport call, through the decorated method or as written; after an
    access of [auth]; after anything has happened on the network, time
    passing included, or to the caller's dictionaries; and after a lookup by
    signature that left the client as it was but for recorded responses. *)
Inductive in_use (X : Externals) (a : Archivist) : State -> Prop :=
  | in_use_fresh (n : Net) (h : list Dict) :
      in_use X a {| self := a; net := n; heap := h |}
  | in_use_call (fuel : nat) (t : transport_call) (st : State) :
      in_use X a st -> in_use X a (snd (call_wrapped X fuel t st))
  | in_use_call_once (t : transport_call) (st : State) :
      in_use X a st -> in_use X a (snd (call_once X t st))
  | in_use_auth (st : State) :
      in_use X a st -> in_use X a (snd (auth X st))
  | in_use_net (f : Net -> Net) (st : State) :
      in_use X a st -> in_use X a (set_net f st)
  | in_use_heap (f : list Dict -> list Dict) (st : State) :
      in_use X a st -> in_use X a (set_heap f st)
  | in_use_lookup (path field : string) (params : Dict) (st : State) :
      in_use X a st ->
      same_client
        (fst (snd (get_by_signature X path field params (self st, net st))))
        (self st) ->
      in_use X a (snd (on_client (get_by_signature X path field params) st)).

(** A token service that works: it always hands out a token string with a
    number of seconds, sends nothing through the client's session, and
    takes some time, not less than none. *)
Definition token_service_ok (X : Externals) : Prop :=
  forall a cid sec n,
    exists apptoken n1 s e,
      appidp_token X a cid sec n = (Ok apptoken, n1)
      /\ apptoken !! "access_token" = Some (VStr s)
      /\ apptoken !! "expires_in" = Some (VNum e)
      /\ sent n1 = sent n /\ slept n1 = slept n /\ clock n <= clock n1.

(** A client whose [auth] property works: its token is a string or [None],
    and it has no client id or the token service works. *)
Definition can_authorize (X : Externals) (a : Archivist) : Prop :=
  str_or_none (_auth a) /\ (_client_id a = None \/ token_service_ok X).

(** A request whose JSON or form body has a "selector" entry. *)
Definition carries_selector (rq : Request) : Prop :=
  exists body : Dict,
    (req_body rq = JsonBody (Some body) \/ req_body rq = FormBody (Some body))
    /\ is_Some (body !! "selector").

(** Whatever the token service sends through the session carries no
    selector. *)
Definition token_service_sends_no_selector (X : Externals) : Prop :=
  forall a cid sec n,
    Forall (fun rq => ~ carries_selector rq) (sent n) ->
    Forall (fun rq => ~ carries_selector rq)
      (sent (snd (appidp_token X a cid sec n))).

(** No request sent so far carries a selector, and the token service, if
    the client has one to call, sends none. *)
Definition sends_no_selector (X : Externals) (st : State) : Prop :=
  Forall (fun rq => ~ carries_selector rq) (sent (net st))
  /\ (_client_id (self st) = None \/ token_service_sends_no_selector X).

(** * Properties *)

(** ** Strings *)

Lemma endswith_suffix (p suffix : string) : endswith (p ++ suffix) suffix = true.
Proof.
  induction p as [|c p IH].
  - change ("" ++ suffix) with suffix.
    destruct suffix; cbn [endswith]; rewrite String.eqb_refl; reflexivity.
  - change (String c p ++ suffix) with (String c (p ++ suffix)).
    cbn [endswith]. rewrite IH. apply orb_true_r.
Qed.

Lemma endswith_inv (s suffix : string) :
  endswith s suffix = true -> exists p, s = p ++ suffix.
Proof.
  induction s as [|c s IH]; cbn [endswith]; intros H.
  - rewrite orb_false_r in H. apply String.eqb_eq in H.
    exists "". simpl. exact H.
  - apply orb_true_iff in H as [H|H].
    + apply String.eqb_eq in H. exists "". simpl. exact H.
    + destruct (IH H) as [p ->]. exists (String c p). reflexivity.
Qed.

Lemma endswith_spec (s suffix : string) :
  endswith s suffix = true <-> exists p, s = p ++ suffix.
Proof.
  split; [apply endswith_inv|]. intros [p ->]. apply endswith_suffix.
Qed.

(** ** The constructor *)

(** C6. A URL that ends in "/" makes the constructor raise [ArchivistError],
    and any other URL gives a client for that URL; in both cases the network
    is left as it was: no request has been sent. *)
Theorem init_trailing_slash (url : string) (auth : auth_arg)
    (fixtures : option Dict) (verify : bool) (max_time : Z) (n : Net) :
  ((exists p, url = p ++ "/") ->
     Archivist_init url auth fixtures verify max_time n
     = (Raise (ArchivistError ("URL " ++ url ++ " has trailing /")), n))
  /\ (~ (exists p, url = p ++ "/") ->
     exists a, Archivist_init url auth fixtures verify max_time n = (Ok a, n)
               /\ _url a = url /\ _root a = url ++ "/archivist").
Proof.
  unfold Archivist_init, ArchivistPublic_init, bind, ret, raise. split.
  - intros Hs. apply endswith_spec in Hs.
    destruct auth; rewrite Hs; reflexivity.
  - intros Hs. destruct (endswith url "/") eqn:E.
    + exfalso. apply Hs, endswith_spec, E.
    + destruct auth; eexists; (split; [reflexivity|split; reflexivity]).
Qed.

Lemma init_trailing_slash_witness :
  Archivist_init "https://app.rkvst.io/" AuthNone None true 300 net0
  = (Raise (ArchivistError "URL https://app.rkvst.io/ has trailing /"), net0)
  /\ exists a,
       Archivist_init "https://app.rkvst.io" (AuthToken "tok") None true 300 net0
       = (Ok a, net0)
       /\ _url a = "https://app.rkvst.io"
       /\ _root a = "https://app.rkvst.io/archivist".
Proof.
  split.
  - apply (init_trailing_slash "https://app.rkvst.io/" AuthNone None true 300 net0).
    exists "https://app.rkvst.io". reflexivity.
  - apply (init_trailing_slash "https://app.rkvst.io" (AuthToken "tok") None true
             300 net0).
    intros H. apply endswith_spec in H. discriminate H.
Defined.

(** ** Entity accessors *)

(** C8. [name] gives the value stored under "display_name" when the key is
    there, and [None] without raising when it is not. *)
Theorem name_display_name (l : Location) :
  (forall v, l !! "display_name" = Some v -> name l = Ok v)
  /\ (l !! "display_name" = None -> name l = Ok VNone).
Proof.
  unfold name, getitem. split.
  - intros v ->. reflexivity.
  - intros ->. reflexivity.
Qed.

Lemma name_display_name_witness :
  name (<["display_name" := VStr "Macclesfield"]> ∅) = Ok (VStr "Macclesfield")
  /\ name (<["description" := VStr "a town"]> ∅) = Ok VNone.
Proof.
  split.
  - apply (name_display_name (<["display_name" := VStr "Macclesfield"]> ∅)).
    reflexivity.
  - apply (name_display_name (<["description" := VStr "a town"]> ∅)).
    reflexivity.
Defined.

(** ** The [auth] property *)

Section AuthProperties.

Context (X : Externals).

Lemma state_eta (st : State) :
  {| self := self st; net := net st; heap := heap st |} = st.
Proof. destruct st; reflexivity. Qed.

(** Without a client id the property is a plain attribute read. *)
Lemma auth_no_client_id (st : State) :
  _client_id (self st) = None -> auth X st = (Ok (_auth (self st)), st).
Proof.
  intros H. unfold auth, bind, gets, time, ret. simpl. rewrite H. reflexivity.
Qed.

(** With a client id and a token that has not expired, likewise. *)
Lemma auth_not_expired (st : State) (cid : string) :
  _client_id (self st) = Some cid ->
  clock (net st) <= _expires_at (self st) ->
  auth X st = (Ok (_auth (self st)), st).
Proof.
  intros H Hle. unfold auth, bind, gets, time, ret. simpl. rewrite H.
  destruct (Z.ltb_spec (_expires_at (self st)) (clock (net st))); [lia|].
  reflexivity.
Qed.

(** With a client id and an expired token, the token service is called; a
    token that is not [None] is stored together with its expiry instant. *)
Lemma auth_refresh (st : State) (cid : string) (apptoken : Dict) (n1 : Net)
    (tok : value) (e : Z) :
  _client_id (self st) = Some cid ->
  _expires_at (self st) < clock (net st) ->
  appidp_token X (self st) cid (_client_secret (self st)) (net st)
  = (Ok apptoken, n1) ->
  apptoken !! "access_token" = Some tok ->
  is_None tok = false ->
  apptoken !! "expires_in" = Some (VNum e) ->
  auth X st = (Ok tok, refreshed st tok n1 e).
Proof.
  intros Hc Hlt Hf Ht Hn He.
  unfold auth, bind, gets, time, ret, on_net, modify, lift_outcome, getitem,
    dict_get. simpl.
  rewrite Hc.
  destruct (Z.ltb_spec (_expires_at (self st)) (clock (net st))); [|lia].
  rewrite Hf. simpl. rewrite Ht, Hn, He. reflexivity.
Qed.

(** Every successful access of a client that has a client id, read
    backwards. *)
Lemma auth_inv (st st' : State) (cid : string) (v : value) :
  _client_id (self st) = Some cid ->
  auth X st = (Ok v, st') ->
  (clock (net st) <= _expires_at (self st)
   /\ st' = st /\ v = _auth (self st))
  \/ (_expires_at (self st) < clock (net st)
      /\ exists apptoken n1 ev e,
           appidp_token X (self st) cid (_client_secret (self st)) (net st)
           = (Ok apptoken, n1)
           /\ apptoken !! "access_token" = Some v
           /\ is_None v = false
           /\ apptoken !! "expires_in" = Some ev
           /\ add_num (clock n1) ev = Ok (clock n1 + e)
           /\ st' = refreshed st v n1 e).
Proof.
  intros Hc H.
  destruct (Z.ltb_spec (_expires_at (self st)) (clock (net st))) as [Hlt|Hge].
  - right. split; [exact Hlt|].
    revert H.
    unfold auth, bind, gets, time, ret, on_net, modify, lift_outcome, getitem,
      dict_get. simpl.
    rewrite Hc.
    destruct (Z.ltb_spec (_expires_at (self st)) (clock (net st))); [|lia].
    destruct (appidp_token X (self st) cid (_client_secret (self st)) (net st))
      as [[apptoken| |] n1] eqn:Hf; simpl; try discriminate.
    destruct (apptoken !! "access_token") as [tok|] eqn:Ht; simpl;
      [|discriminate].
    destruct (is_None tok) eqn:Hn; simpl; [discriminate|].
    destruct (apptoken !! "expires_in") as [ev|] eqn:He; simpl;
      [|discriminate].
    destruct ev as [|b|z| | |]; simpl; try discriminate.
    + intros [= <- <-]. exists apptoken, n1, (VBool b), (Z.b2z b).
      repeat split; assumption.
    + intros [= <- <-]. exists apptoken, n1, (VNum z), z.
      repeat split; assumption.
  - left. rewrite (auth_not_expired st cid Hc Hge) in H.
    injection H as <- <-. repeat split; assumption.
Qed.

End AuthProperties.

(** C5 (as amended). A successful access of [auth] at time [t] by a client
    that holds a client id either finds a stored expiry that is not earlier
    than [t] and returns the stored token without a refresh (the stored
    expiry is the reported one minus 10 seconds, so the reported expiry is
    strictly later than [t]); or finds it strictly earlier than [t], fetches
    a token and stores as expiry the time after the fetch plus the reported
    [expires_in] minus 10 seconds, which is strictly later than [t] when
    [expires_in] exceeds 10 seconds and the clock has not run backwards. *)
Theorem auth_expiry_margin (X : Externals) (st st' : State) (cid : string)
    (v : value) :
  _client_id (self st) = Some cid ->
  auth X st = (Ok v, st') ->
  (st' = st /\ v = _auth (self st)
   /\ clock (net st) <= _expires_at (self st')
   /\ clock (net st) < _expires_at (self st') + 10)
  \/ (_expires_at (self st) < clock (net st)
      /\ exists apptoken n1 ev e,
           appidp_token X (self st) cid (_client_secret (self st)) (net st)
           = (Ok apptoken, n1)
           /\ apptoken !! "access_token" = Some v
           /\ apptoken !! "expires_in" = Some ev
           /\ add_num 0 ev = Ok e
           /\ net st' = n1
           /\ _auth (self st') = v
           /\ _expires_at (self st') = clock n1 + e - 10
           /\ (clock (net st) <= clock n1 -> 10 < e ->
               clock (net st) < _expires_at (self st'))).
Proof.
  intros Hc H.
  destruct (auth_inv X st st' cid v Hc H)
    as [(Hle & -> & ->)|(Hlt & apptoken & n1 & ev & e & Hf & Ht & Hn & He & Ha & ->)].
  - left. repeat split; lia.
  - right. split; [exact Hlt|].
    exists apptoken, n1, ev, e. repeat split; try assumption.
    + destruct ev; simpl in *; try discriminate; injection Ha as Ha; f_equal; lia.
    + simpl. intros. lia.
Qed.

Lemma auth_expiry_margin_witness :
  exists st',
    auth (machine_externals 3 3600) (machine_state 0)
    = (Ok (VStr "fresh"), st')
    /\ _expires_at (self st') = 1003 + 3600 - 10
    /\ clock (net (machine_state 0)) < _expires_at (self st').
Proof.
  destruct (auth_expiry_margin (machine_externals 3 3600) (machine_state 0)
              (refreshed (machine_state 0) (VStr "fresh")
                 {| clock := 1003; slept := 0; sent := [] |} 3600)
              "id" (VStr "fresh") eq_refl eq_refl)
    as [(Hst & _)|(_ & apptoken & n1 & ev & e & _ & _ & _ & _ & _ & _ & He & Hlt)].
  - discriminate Hst.
  - eexists. split; [reflexivity|]. split; [reflexivity|]. simpl. lia.
Defined.

(** C5 (as stated) fails twice.  At the instant of the stored expiry the
    token is returned without a refresh, with an expiry that is not later
    than the time of the access; and a token reported to be valid for 5
    seconds is stored with an expiry in the past. *)
Lemma auth_expiry_counterexample :
  (auth (machine_externals 3 3600) (machine_state 1000)
   = (Ok (VStr "tok"), machine_state 1000)
   /\ ~ clock (net (machine_state 1000))
        < _expires_at (self (machine_state 1000)))
  /\ exists st',
       auth (machine_externals 0 5) (machine_state 0) = (Ok (VStr "fresh"), st')
       /\ ~ clock (net (machine_state 0)) < _expires_at (self st').
Proof.
  split.
  - split; [reflexivity|]. simpl. lia.
  - eexists. split; [reflexivity|]. simpl. lia.
Qed.

(** ** The REST verbs, one call at a time *)

Section VerbProperties.

Context (X : Externals).

Lemma add_headers_ok (st st1 : State) (tok : value) (headers : option Dict) :
  auth X st = (Ok tok, st1) ->
  str_or_none tok ->
  _add_headers X headers st = (Ok (bearer_headers tok headers), st1).
Proof.
  intros Ha Ht. unfold _add_headers, bind. rewrite Ha.
  destruct Ht as [->|[s ->]]; destruct headers; reflexivity.
Qed.

Ltac run_call Ha Ht :=
  repeat match goal with x := _ |- _ => subst x end;
  unfold bind; rewrite (add_headers_ok _ _ _ _ Ha Ht);
  unfold gets, session_call, record_response, modify, raise_if, outcome_of,
    ret, raise, json_post_request, post_file_request, delete_request,
    patch_request, get_request; cbn [fst snd];
  match goal with
  | |- context [_parse_response ?r] => destruct (_parse_response r)
  end; reflexivity.

Lemma post_call_json (st st1 : State) (tok : value) (url : string)
    (request headers : option Dict) :
  auth X st = (Ok tok, st1) ->
  str_or_none tok ->
  let req := json_post_request url request (bearer_headers tok headers)
               (_verify (self st1)) in
  post_call X url request headers false st
  = (outcome_of (serve X (sent (net st1)) req), log_request req st1).
Proof. intros Ha Ht req. unfold post_call. run_call Ha Ht. Qed.

Lemma post_call_form (st : State) (url : string) (request headers : option Dict) :
  let req := form_post_request url request (_verify (self st)) in
  post_call X url request headers true st
  = (outcome_of (serve X (sent (net st)) req), log_request req st).
Proof.
  intros req. subst req.
  unfold post_call, bind, gets, session_call, raise_if, outcome_of, ret, raise,
    form_post_request.
  cbn [fst snd].
  match goal with
  | |- context [_parse_response ?r] => destruct (_parse_response r)
  end; reflexivity.
Qed.

Lemma post_file_call_spec (st st1 : State) (tok : value)
    (url fd mtype form : string) (params : option Dict) :
  auth X st = (Ok tok, st1) ->
  str_or_none tok ->
  let headers : Dict :=
    {[ "content-type" := VStr (multipart_content_type X form fd mtype) ]} in
  let req := post_file_request X url fd mtype form params
               (bearer_headers tok (Some headers)) (_verify (self st1)) in
  let response := serve X (sent (net st1)) req in
  post_file_call X url fd mtype form params st
  = (outcome_of response, keep_response X response (log_request req st1)).
Proof. intros Ha Ht hs req resp. unfold post_file_call. run_call Ha Ht. Qed.

Lemma delete_call_spec (st st1 : State) (tok : value) (url : string)
    (headers : option Dict) :
  auth X st = (Ok tok, st1) ->
  str_or_none tok ->
  let req := delete_request url (bearer_headers tok headers)
               (_verify (self st1)) in
  let response := serve X (sent (net st1)) req in
  delete_call X url headers st
  = (outcome_of response, keep_response X response (log_request req st1)).
Proof. intros Ha Ht req resp. unfold delete_call. run_call Ha Ht. Qed.

Lemma patch_call_spec (st st1 : State) (tok : value) (url : string)
    (request : Dict) (headers : option Dict) :
  auth X st = (Ok tok, st1) ->
  str_or_none tok ->
  let req := patch_request url request (bearer_headers tok headers)
               (_verify (self st1)) in
  let response := serve X (sent (net st1)) req in
  patch_call X url request headers st
  = (outcome_of response, keep_response X response (log_request req st1)).
Proof. intros Ha Ht req resp. unfold patch_call. run_call Ha Ht. Qed.

Lemma get_call_spec (st st1 : State) (tok : value) (url : string)
    (headers : option Dict) :
  auth X st = (Ok tok, st1) ->
  str_or_none tok ->
  let req := get_request url (bearer_headers tok headers)
               (_verify (self st1)) in
  let response := serve X (sent (net st1)) req in
  get_call X url headers st
  = (outcome_of response, keep_response X response (log_request req st1)).
Proof. intros Ha Ht req resp. unfold get_call. run_call Ha Ht. Qed.

End VerbProperties.

(** C3 (as amended). When [auth] yields a token string, refreshed first if
    it had expired, the request that a POST in JSON mode, a file upload, a
    DELETE or a PATCH hands to the session carries the caller's headers with
    "authorization" set to "Bearer " followed by the stripped token.  A POST
    in form-encoded mode does not consult [auth] and passes no headers. *)
Theorem bearer_header_attached (X : Externals) (st st1 : State) (s : string) :
  auth X st = (Ok (VStr s), st1) ->
  let bearer (headers : option Dict) : Dict :=
    <["authorization" := VStr ("Bearer " ++ strip s)]> (default ∅ headers) in
  (forall url request headers, exists req,
      sent (net (snd (post_call X url request headers false st)))
      = req :: sent (net st1)
      /\ req_method req = POST /\ req_body req = JsonBody request
      /\ req_headers req = Some (bearer headers))
  /\ (forall url fd mtype form params, exists req,
      sent (net (snd (post_file_call X url fd mtype form params st)))
      = req :: sent (net st1)
      /\ req_method req = POST /\ req_body req = Multipart form fd mtype
      /\ req_headers req
         = Some (bearer (Some {[ "content-type" :=
                   VStr (multipart_content_type X form fd mtype) ]})))
  /\ (forall url headers, exists req,
      sent (net (snd (delete_call X url headers st))) = req :: sent (net st1)
      /\ req_method req = DELETE
      /\ req_headers req = Some (bearer headers))
  /\ (forall url request headers, exists req,
      sent (net (snd (patch_call X url request headers st)))
      = req :: sent (net st1)
      /\ req_method req = PATCH /\ req_body req = JsonBody (Some request)
      /\ req_headers req = Some (bearer headers))
  /\ (forall url request headers, exists req,
      sent (net (snd (post_call X url request headers true st)))
      = req :: sent (net st)
      /\ self (snd (post_call X url request headers true st)) = self st
      /\ req_method req = POST /\ req_body req = FormBody request
      /\ req_headers req = None).
Proof.
  intros Ha bearer.
  assert (Ht : str_or_none (VStr s)) by (right; eexists; reflexivity).
  repeat split; intros.
  - rewrite (post_call_json X st st1 _ url request headers Ha Ht).
    eexists. repeat split.
  - rewrite (post_file_call_spec X st st1 _ url fd mtype form params Ha Ht).
    eexists. repeat split.
  - rewrite (delete_call_spec X st st1 _ url headers Ha Ht).
    eexists. repeat split.
  - rewrite (patch_call_spec X st st1 _ url request headers Ha Ht).
    eexists. repeat split.
  - rewrite (post_call_form X st url request headers).
    eexists. repeat split.
Qed.

Lemma bearer_header_attached_witness :
  exists req,
    sent (net (snd (patch_call (machine_externals 3 3600)
                      "https://app.rkvst.io/archivist/v2/locations/1" ∅ None
                      (machine_state 0))))
    = [req]
    /\ req_method req = PATCH
    /\ req_headers req
       = Some (<["authorization" := VStr "Bearer fresh"]> ∅).
Proof.
  destruct (bearer_header_attached (machine_externals 3 3600) (machine_state 0)
              (refreshed (machine_state 0) (VStr "fresh")
                 {| clock := 1003; slept := 0; sent := [] |} 3600)
              "fresh" eq_refl)
    as (_ & _ & _ & Hpatch & _).
  destruct (Hpatch "https://app.rkvst.io/archivist/v2/locations/1" ∅ None)
    as (req & Hsent & Hm & _ & Hh).
  exists req. repeat split; assumption.
Defined.

(** C3 (as stated) fails for a POST in form-encoded mode: the client holds
    the token "tok", and the request goes out without any header. *)
Lemma form_post_counterexample :
  let X := externals_of (constant_server (VDict ∅)) in
  auth X token_state = (Ok (VStr "tok"), token_state)
  /\ exists req st',
       post_call X "https://app.rkvst.io/archivist/iam/v1/appidp/token"
         (Some (<["grant_type" := VStr "client_credentials"]> ∅)) None true
         token_state
       = (Ok (VDict ∅), st')
       /\ sent (net st') = [req]
       /\ req_headers req = None
       /\ ~ (exists h, req_headers req = Some h
                       /\ h !! "authorization" = Some (VStr "Bearer tok")).
Proof.
  split; [reflexivity|].
  eexists. eexists. split; [reflexivity|]. split; [reflexivity|].
  split; [reflexivity|]. intros (h & Hh & _). discriminate Hh.
Qed.

(** ** The ring buffer of responses *)

Lemma appendleft_head {A} (maxlen : nat) (x : A) (buf : list A) :
  (0 < maxlen)%nat -> head (appendleft maxlen x buf) = Some x.
Proof. destruct maxlen; [lia|]. reflexivity. Qed.

Lemma appendleft_length {A} (maxlen : nat) (x : A) (buf : list A) :
  (length (appendleft maxlen x buf) <= maxlen)%nat.
Proof. unfold appendleft. rewrite length_take. lia. Qed.

(** When the buffer is full, the rightmost element goes. *)
Lemma appendleft_full {A} (maxlen : nat) (x : A) (buf : list A) :
  (0 < maxlen)%nat ->
  length buf = maxlen ->
  appendleft maxlen x buf = x :: take (maxlen - 1) buf.
Proof.
  intros Hpos <-. unfold appendleft. destruct buf as [|y buf].
  - simpl in Hpos. lia.
  - simpl. rewrite Nat.sub_0_r. reflexivity.
Qed.

(** Reading [auth] does not touch the ring buffer. *)
Lemma auth_ring_buffer (X : Externals) (st : State) :
  _response_ring_buffer (self (snd (auth X st)))
  = _response_ring_buffer (self st).
Proof.
  unfold auth, bind, gets, time, ret, on_net, modify, lift_outcome, raise.
  simpl.
  destruct (_client_id (self st)) as [cid|]; [|reflexivity].
  destruct (_expires_at (self st) <? clock (net st)); [|reflexivity].
  destruct (appidp_token X (self st) cid (_client_secret (self st)) (net st))
    as [[apptoken| |] n1]; simpl; try reflexivity.
  destruct (is_None (dict_get apptoken "access_token")); simpl; [reflexivity|].
  destruct (getitem apptoken "expires_in") as [ev| |]; simpl; try reflexivity.
  destruct (add_num (clock n1) ev); reflexivity.
Qed.

(** One call of [post] as written leaves the ring buffer as it was, in both
    modes and whatever the response is. *)
Lemma post_call_ring_buffer (X : Externals) (st : State) (url : string)
    (request headers : option Dict) (data : bool) :
  _response_ring_buffer (self (snd (post_call X url request headers data st)))
  = _response_ring_buffer (self st).
Proof.
  destruct data.
  - rewrite post_call_form. reflexivity.
  - pose proof (auth_ring_buffer X st) as Hb.
    unfold post_call, bind, _add_headers, bind.
    destruct (auth X st) as [[tok| |] st1]; cbn [fst snd] in *;
      try exact Hb.
    destruct tok; unfold ret, raise, gets, session_call, raise_if;
      cbn [fst snd]; try exact Hb;
      match goal with
      | |- context [_parse_response ?r] => destruct (_parse_response r)
      end; exact Hb.
Qed.

(** One call of [patch] as written puts its response first in a ring buffer
    that has room for at least one. *)
Lemma patch_call_ring_buffer (X : Externals) (st st1 : State) (tok : value)
    (url : string) (request : Dict) (headers : option Dict) :
  (0 < RING_BUFFER_MAX_LEN X)%nat ->
  auth X st = (Ok tok, st1) ->
  str_or_none tok ->
  head (_response_ring_buffer
          (self (snd (patch_call X url request headers st))))
  = Some (serve X (sent (net st1))
            (patch_request url request (bearer_headers tok headers)
               (_verify (self st1)))).
Proof.
  intros Hlen Ha Ht. rewrite (patch_call_spec X st st1 tok _ _ _ Ha Ht).
  cbn. apply appendleft_head, Hlen.
Qed.

(** C4 (the code at a failing input). A wrapped [post] that receives a 200
    response returns its body with one request sent and leaves the ring
    buffer empty, where [patch], [delete] and [post_file] on the same client
    and server put the response they received first in the buffer. *)
Theorem post_response_not_recorded :
  let X := externals_of (constant_server (VDict ∅)) in
  let url := "https://app.rkvst.io/archivist/v2/locations" in
  exists st_post st_patch st_delete st_file,
    post X 1 url (Some ∅) None false token_state = (Ok (VDict ∅), st_post)
    /\ length (sent (net st_post)) = 1%nat
    /\ _response_ring_buffer (self st_post) = []
    /\ patch X 1 url ∅ None token_state = (Ok (VDict ∅), st_patch)
    /\ _response_ring_buffer (self st_patch) = [response_ok (VDict ∅)]
    /\ delete X 1 url None token_state = (Ok (VDict ∅), st_delete)
    /\ _response_ring_buffer (self st_delete) = [response_ok (VDict ∅)]
    /\ post_file X 1 url "bytes" "image/jpg" "file" None token_state
       = (Ok (VDict ∅), st_file)
    /\ _response_ring_buffer (self st_file) = [response_ok (VDict ∅)].
Proof.
  do 4 eexists. repeat split; reflexivity.
Qed.

(** ** The retry wrapper around a call that is not rate limited *)

Lemma retry_429_start {A} (X : Externals) (fuel : nat) (call : M State A)
    (st : State) :
  retry_429 X fuel call st
  = retry_loop X fuel
      {| attempts := 0; deadline := clock (net st) + _max_time (self st);
         last_retry_after := None |}
      call st.
Proof. reflexivity. Qed.

Lemma retry_429_ok {A} (X : Externals) (fuel : nat) (call : M State A)
    (st st' : State) (a : A) :
  (0 < fuel)%nat ->
  call st = (Ok a, st') ->
  retry_429 X fuel call st = (Ok a, st').
Proof.
  intros Hf Hc. destruct fuel as [|n]; [lia|].
  rewrite retry_429_start. cbn [retry_loop].
  unfold try_except. rewrite Hc. reflexivity.
Qed.

Lemma retry_429_outcome (X : Externals) (fuel : nat) (call : M State value)
    (st st' : State) (response : Response) :
  (0 < fuel)%nat ->
  status_code response <> 429 ->
  call st = (outcome_of response, st') ->
  retry_429 X fuel call st = (outcome_of response, st').
Proof.
  intros Hf Hs Hc. destruct fuel as [|n]; [lia|].
  rewrite retry_429_start. cbn [retry_loop].
  unfold try_except. rewrite Hc.
  unfold outcome_of, _parse_response.
  destruct ((200 <=? status_code response) && (status_code response <? 300));
    [reflexivity|].
  destruct (status_code response =? 404); [reflexivity|].
  destruct (Z.eqb_spec (status_code response) 429); [contradiction|].
  destruct ((status_code response =? 401) || (status_code response =? 403));
    [reflexivity|].
  destruct ((400 <=? status_code response) && (status_code response <? 500));
    [reflexivity|].
  destruct (500 <=? status_code response); reflexivity.
Qed.

(** ** Clients in use *)

Lemma call_wrapped_retry (X : Externals) (fuel : nat) (t : transport_call) :
  call_wrapped X fuel t = retry_429 X fuel (call_once X t).
Proof. destruct t; reflexivity. Qed.

Lemma same_client_refl (a : Archivist) : same_client a a.
Proof. reflexivity. Qed.

Lemma same_client_trans (a b c : Archivist) :
  same_client a b -> same_client b c -> same_client a c.
Proof. unfold same_client. congruence. Qed.

Lemma same_client_fields (a b : Archivist) :
  same_client a b ->
  _client_id a = _client_id b /\ _client_secret a = _client_secret b
  /\ _auth a = _auth b /\ _expires_at a = _expires_at b
  /\ _max_time a = _max_time b /\ _verify a = _verify b.
Proof.
  unfold same_client. intros H. repeat split.
  - exact (f_equal _client_id H).
  - exact (f_equal _client_secret H).
  - exact (f_equal _auth H).
  - exact (f_equal _expires_at H).
  - exact (f_equal (fun x : Archivist => _max_time x) H).
  - exact (f_equal (fun x : Archivist => _verify x) H).
Qed.

(** One transport call as written, by cases on what [auth] does. *)
Lemma call_once_form (X : Externals) (t : transport_call) (st : State) :
  is_form t = true ->
  let rq := request_of X t VNone (_verify (self st)) in
  call_once X t st = (outcome_of (serve X (sent (net st)) rq), log_request rq st).
Proof.
  destruct t as [url request headers [|]| | | |]; try discriminate.
  intros _. apply post_call_form.
Qed.

Lemma call_once_run (X : Externals) (t : transport_call) (st st1 : State)
    (tok : value) :
  is_form t = false ->
  auth X st = (Ok tok, st1) ->
  str_or_none tok ->
  let rq := request_of X t tok (_verify (self st1)) in
  let response := serve X (sent (net st1)) rq in
  call_once X t st
  = (outcome_of response,
     if records t then keep_response X response (log_request rq st1)
     else log_request rq st1).
Proof.
  intros Hform Ha Ht.
  destruct t as [url request headers data|url fd mtype form params|url headers
                |url request headers|url headers]; cbn [call_once request_of records].
  - cbn in Hform. subst data. apply (post_call_json X st st1 tok _ _ _ Ha Ht).
  - apply (post_file_call_spec X st st1 tok _ _ _ _ _ Ha Ht).
  - apply (delete_call_spec X st st1 tok _ _ Ha Ht).
  - apply (patch_call_spec X st st1 tok _ _ _ Ha Ht).
  - apply (get_call_spec X st st1 tok _ _ Ha Ht).
Qed.

Lemma call_once_fail (X : Externals) (t : transport_call) (st st1 : State)
    (r : outcome value) :
  is_form t = false ->
  auth X st = (r, st1) ->
  match r with Ok tok => ~ str_or_none tok | _ => True end ->
  call_once X t st
  = (match r with
     | Ok _ => Raise AttributeError
     | Raise e => Raise e
     | OutOfFuel => OutOfFuel
     end, st1).
Proof.
  intros Hform Ha Hr.
  assert (Hh : forall headers,
            _add_headers X headers st
            = (match r with
               | Ok _ => Raise AttributeError
               | Raise e => Raise e
               | OutOfFuel => OutOfFuel
               end, st1)).
  { intros headers. unfold _add_headers, bind. rewrite Ha.
    destruct r as [tok| |]; try reflexivity.
    destruct tok; try reflexivity.
    - exfalso. apply Hr. left. reflexivity.
    - exfalso. apply Hr. right. eexists. reflexivity. }
  destruct t as [url request headers data|url fd mtype form params|url headers
                |url request headers|url headers]; cbn [call_once].
  - cbn in Hform. subst data. unfold post_call, bind. rewrite Hh.
    destruct r; reflexivity.
  - unfold post_file_call, bind. rewrite Hh. destruct r; reflexivity.
  - unfold delete_call, bind. rewrite Hh. destruct r; reflexivity.
  - unfold patch_call, bind. rewrite Hh. destruct r; reflexivity.
  - unfold get_call, bind. rewrite Hh. destruct r; reflexivity.
Qed.

Lemma str_or_none_dec (tok : value) : str_or_none tok \/ ~ str_or_none tok.
Proof.
  destruct tok; try (right; intros [H|[s H]]; discriminate).
  - left. left. reflexivity.
  - left. right. eexists. reflexivity.
Qed.

(** A property of the state that one call and a sleep keep is kept by the
    retry wrapper. *)
Lemma retry_loop_invariant {A} (X : Externals) (P : State -> Prop)
    (call : M State A) :
  (forall st, P st -> P (snd (call st))) ->
  (forall st d, P st -> P (set_net (advance d) st)) ->
  forall n ctx st, P st -> P (snd (retry_loop X n ctx call st)).
Proof.
  intros Hcall Hsleep. induction n as [|n IH]; intros ctx st HP.
  - exact HP.
  - cbn [retry_loop]. unfold try_except. specialize (Hcall st HP).
    destruct (call st) as [[a|e|] st1]; cbn [snd] in *; try exact Hcall.
    destruct e; try exact Hcall.
    unfold bind, time, gets, sleep, modify, raise. cbn [fst snd].
    destruct (deadline ctx <? clock (net st1)); [exact Hcall|].
    apply IH, Hsleep, Hcall.
Qed.

Lemma retry_429_invariant {A} (X : Externals) (P : State -> Prop)
    (fuel : nat) (call : M State A) :
  (forall st, P st -> P (snd (call st))) ->
  (forall st d, P st -> P (set_net (advance d) st)) ->
  forall st, P st -> P (snd (retry_429 X fuel call st)).
Proof.
  intros Hcall Hsleep st HP. rewrite retry_429_start.
  apply retry_loop_invariant; assumption.
Qed.

(** A call that finds [auth] quiet leaves the client as it was, recorded
    responses aside. *)
Lemma call_once_same_client (X : Externals) (t : transport_call) (st : State)
    (tok : value) :
  auth X st = (Ok tok, st) ->
  same_client (self (snd (call_once X t st))) (self st).
Proof.
  intros Ha. destruct (is_form t) eqn:Hform.
  - rewrite (call_once_form X t st Hform). reflexivity.
  - destruct (str_or_none_dec tok) as [Ht|Ht].
    + rewrite (call_once_run X t st st tok Hform Ha Ht).
      destruct (records t); reflexivity.
    + rewrite (call_once_fail X t st st (Ok tok) Hform Ha Ht). reflexivity.
Qed.

Lemma call_wrapped_no_client_id (X : Externals) (fuel : nat)
    (t : transport_call) (st : State) :
  _client_id (self st) = None ->
  same_client (self (snd (call_wrapped X fuel t st))) (self st).
Proof.
  intros Hc. rewrite call_wrapped_retry.
  apply (retry_429_invariant X (fun s => same_client (self s) (self st))).
  - intros s Hs. eapply same_client_trans; [|exact Hs].
    apply (call_once_same_client X t s (_auth (self s))).
    apply auth_no_client_id.
    destruct (same_client_fields _ _ Hs) as (-> & _). exact Hc.
  - intros s d Hs. exact Hs.
  - apply same_client_refl.
Qed.

(** A client without client id stays what it was built as, recorded
    responses aside, however it is used. *)
Lemma in_use_plain (X : Externals) (a : Archivist) (st : State) :
  _client_id a = None -> in_use X a st -> same_client (self st) a.
Proof.
  intros Hc Huse.
  induction Huse as [n h|fuel t st Huse IH|t st Huse IH|st Huse IH
                    |f st Huse IH|f st Huse IH|path field params st Huse IH Hl].
  - apply same_client_refl.
  - eapply same_client_trans; [|exact IH].
    apply call_wrapped_no_client_id.
    destruct (same_client_fields _ _ IH) as (-> & _). exact Hc.
  - eapply same_client_trans; [|exact IH].
    apply (call_once_same_client X t st (_auth (self st))).
    apply auth_no_client_id.
    destruct (same_client_fields _ _ IH) as (-> & _). exact Hc.
  - rewrite auth_no_client_id; [exact IH|].
    destruct (same_client_fields _ _ IH) as (-> & _). exact Hc.
  - exact IH.
  - exact IH.
  - eapply same_client_trans; [|exact IH].
    unfold on_client.
    destruct (get_by_signature X path field params (self st, net st))
      as [r [a' n']]. exact Hl.
Qed.

Lemma auth_in_use (X : Externals) (a : Archivist) (st : State) :
  _client_id a = None -> in_use X a st -> auth X st = (Ok (_auth a), st).
Proof.
  intros Hc Huse. pose proof (in_use_plain X a st Hc Huse) as Hs.
  destruct (same_client_fields _ _ Hs) as (Hc' & _ & Ha & _).
  rewrite auth_no_client_id by congruence. rewrite Ha. reflexivity.
Qed.

(** The methods of the locations client that go through [post] and [get]
    leave a client in use. *)
Lemma in_use_create_from_data (X : Externals) (a : Archivist) (fuel : nat)
    (c : _LocationsClient) (data : Dict) (st : State) :
  in_use X a st -> in_use X a (snd (create_from_data X fuel c data st)).
Proof.
  intros Huse.
  pose proof (in_use_call X a fuel (Post (_label c) (Some data) None false)
                st Huse) as H.
  cbn [call_wrapped] in H. unfold create_from_data, bind.
  destruct (post X fuel (_label c) (Some data) None false st)
    as [[body|e|] st']; exact H.
Qed.

Lemma in_use_read (X : Externals) (a : Archivist) (fuel : nat)
    (c : _LocationsClient) (identity : string) (st : State) :
  in_use X a st -> in_use X a (snd (read X fuel c identity st)).
Proof.
  intros Huse.
  pose proof (in_use_call X a fuel (Get (_subpath c ++ "/" ++ identity) None)
                st Huse) as H.
  cbn [call_wrapped] in H. unfold read, bind.
  destruct (get X fuel (_subpath c ++ "/" ++ identity) None st)
    as [[body|e|] st']; exact H.
Qed.

(** C9. A client built from a plain token string, or from [None], returns the
    stored value on every access of [auth]: in every state in which the
    client is found while it is used, at any time and whatever the network
    and the token service are, and the access leaves the whole state as it
    was: no token is fetched and nothing is refreshed. *)
Theorem auth_plain_token (X : Externals) (url : string) (tok : auth_arg)
    (fixtures : option Dict) (verify : bool) (max_time : Z) (n n' : Net)
    (a : Archivist) (st : State) :
  (forall cid sec, tok <> AuthMachine cid sec) ->
  Archivist_init url tok fixtures verify max_time n = (Ok a, n') ->
  in_use X a st ->
  auth X st
  = (Ok (match tok with AuthToken s => VStr s | _ => VNone end), st).
Proof.
  intros Hplain Hinit Huse.
  assert (Ha : _client_id a = None
               /\ _auth a = match tok with AuthToken s => VStr s | _ => VNone end).
  { revert Hinit.
    unfold Archivist_init, ArchivistPublic_init, bind, ret, raise.
    destruct tok as [|s|cid sec]; [| |exfalso; eapply Hplain; reflexivity];
      destruct (endswith url "/"); try discriminate;
      intros [= <- _]; split; reflexivity. }
  destruct Ha as [Hc <-]. apply auth_in_use; assumption.
Qed.

Lemma auth_plain_token_witness :
  let X := machine_externals 3 3600 in
  let used :=
    set_net (advance (10 ^ 12))
      (snd (patch X 1 "https://app.rkvst.io/archivist/v2/locations/1" ∅ None
              token_state)) in
  _response_ring_buffer (self used) = [response_ok (VDict ∅)]
  /\ auth X used = (Ok (VStr "tok"), used).
Proof.
  intros X used. split; [reflexivity|].
  apply (auth_plain_token X "https://app.rkvst.io" (AuthToken "tok") None true
           MAX_TIME net0 net0 token_client used).
  - intros cid sec. discriminate.
  - reflexivity.
  - apply in_use_net.
    apply (in_use_call X token_client 1
             (Patch "https://app.rkvst.io/archivist/v2/locations/1" ∅ None)).
    apply (in_use_fresh X token_client net0 []).
Defined.

(** ** Create and read *)

Lemma params_spec (X : Externals) (props attrs : option Dict) (st : State) :
  _LocationsClient__params X props attrs st
  = (Ok (location_params X (self st) props attrs), st).
Proof. reflexivity. Qed.

Lemma outcome_of_ok (response : Response) (v : value) :
  outcome_of response = Ok v ->
  _parse_response response = None /\ v = json response.
Proof.
  unfold outcome_of. destruct (_parse_response response); [discriminate|].
  intros [= <-]. split; reflexivity.
Qed.

Lemma parsed_not_429 (response : Response) :
  _parse_response response = None -> status_code response <> 429.
Proof.
  unfold _parse_response. intros H Hs. rewrite Hs in H. discriminate H.
Qed.

(** A result of the retry wrapper is the result of one of its calls. *)
Lemma retry_loop_ok_inv {A} (X : Externals) (call : M State A) (n : nat) :
  forall ctx st a st',
    retry_loop X n ctx call st = (Ok a, st') ->
    exists st0, call st0 = (Ok a, st').
Proof.
  induction n as [|n IH]; intros ctx st a st'; cbn [retry_loop].
  - discriminate.
  - unfold try_except. destruct (call st) as [[a0|e|] st1] eqn:Hcall.
    + intros [= <- <-]. exists st. exact Hcall.
    + destruct e; try discriminate.
      unfold bind, time, gets, sleep, modify, raise. cbn [fst snd].
      destruct (deadline ctx <? clock (net st1)); [discriminate|].
      apply IH.
    + discriminate.
Qed.

(** A transport call that returns has sent its request last, and returns
    the JSON body of a response that parsed as good. *)
Lemma call_once_ok_inv (X : Externals) (t : transport_call) (st st' : State)
    (v : value) :
  call_once X t st = (Ok v, st') ->
  exists tok verify hist,
    let rq := request_of X t tok verify in
    sent (net st') = rq :: hist
    /\ _parse_response (serve X hist rq) = None
    /\ v = json (serve X hist rq).
Proof.
  destruct (is_form t) eqn:Hform.
  - rewrite (call_once_form X t st Hform). intros [= Ho <-].
    destruct (outcome_of_ok _ _ Ho) as [Hp Hv].
    exists VNone, (_verify (self st)), (sent (net st)).
    split; [reflexivity|]. split; assumption.
  - destruct (auth X st) as [r st1] eqn:Ha.
    destruct r as [tok| |].
    + destruct (str_or_none_dec tok) as [Ht|Ht].
      * rewrite (call_once_run X t st st1 tok Hform Ha Ht). intros [= Ho <-].
        destruct (outcome_of_ok _ _ Ho) as [Hp Hv].
        exists tok, (_verify (self st1)), (sent (net st1)).
        split; [destruct (records t); reflexivity|]. split; assumption.
      * rewrite (call_once_fail X t st st1 (Ok tok) Hform Ha Ht).
        discriminate.
    + rewrite (call_once_fail X t st st1 (Raise e) Hform Ha I). discriminate.
    + rewrite (call_once_fail X t st st1 OutOfFuel Hform Ha I). discriminate.
Qed.

Lemma call_wrapped_ok_inv (X : Externals) (fuel : nat) (t : transport_call)
    (st st' : State) (v : value) :
  call_wrapped X fuel t st = (Ok v, st') ->
  exists tok verify hist,
    let rq := request_of X t tok verify in
    sent (net st') = rq :: hist
    /\ _parse_response (serve X hist rq) = None
    /\ v = json (serve X hist rq).
Proof.
  rewrite call_wrapped_retry, retry_429_start. intros H.
  destruct (retry_loop_ok_inv X _ _ _ _ _ _ H) as [st0 H0].
  apply (call_once_ok_inv X t st0 st' v H0).
Qed.

Lemma location_kwargs_ok (v : value) (e : Location) :
  Location_kwargs v = Ok e -> v = VDict e.
Proof. destruct v; try discriminate. intros [= <-]. reflexivity. Qed.

(** C7 (as amended). Whatever the client, an entity that [create_from_data]
    or [create] returns is the mapping carried by the server's good answer
    to the request sent last, a POST of the data to the locations URL, and
    an entity that [read] returns is the mapping carried by the server's
    good answer to the GET of the identity; nothing is checked about the
    field "identity".  And they do return: when [auth] yields a token and
    the server answers the POST, then the GET, with a good response that
    carries a mapping, [create_from_data] and [read] return these mappings,
    which are equal when the server's answers are. *)
Theorem create_read_passthrough (X : Externals) (fuel : nat)
    (c : _LocationsClient) (st : State) :
  (forall data e st',
      create_from_data X fuel c data st = (Ok e, st') ->
      exists rq hist,
        sent (net st') = rq :: hist
        /\ req_method rq = POST /\ req_url rq = _label c
        /\ req_body rq = JsonBody (Some data)
        /\ _parse_response (serve X hist rq) = None
        /\ json (serve X hist rq) = VDict e)
  /\ (forall props attrs e st',
        create X fuel c props attrs st = (Ok e, st') ->
        exists rq hist,
          sent (net st') = rq :: hist
          /\ req_method rq = POST /\ req_url rq = _label c
          /\ req_body rq
             = JsonBody (Some (location_params X (self st) (Some props) attrs))
          /\ _parse_response (serve X hist rq) = None
          /\ json (serve X hist rq) = VDict e)
  /\ (forall identity e st',
        read X fuel c identity st = (Ok e, st') ->
        exists rq hist,
          sent (net st') = rq :: hist
          /\ req_method rq = GET
          /\ req_url rq = _subpath c ++ "/" ++ identity
          /\ _parse_response (serve X hist rq) = None
          /\ json (serve X hist rq) = VDict e)
  /\ (forall data tok st1 e,
        (0 < fuel)%nat ->
        auth X st = (Ok tok, st1) ->
        str_or_none tok ->
        let rq := json_post_request (_label c) (Some data)
                    (bearer_headers tok None) (_verify (self st1)) in
        let rs := serve X (sent (net st1)) rq in
        _parse_response rs = None -> json rs = VDict e ->
        create_from_data X fuel c data st = (Ok e, log_request rq st1))
  /\ (forall identity tok st1 e,
        (0 < fuel)%nat ->
        auth X st = (Ok tok, st1) ->
        str_or_none tok ->
        let rq := get_request (_subpath c ++ "/" ++ identity)
                    (bearer_headers tok None) (_verify (self st1)) in
        let rs := serve X (sent (net st1)) rq in
        _parse_response rs = None -> json rs = VDict e ->
        read X fuel c identity st
        = (Ok e, keep_response X rs (log_request rq st1))).
Proof.
  assert (Hcreate : forall data e st',
            create_from_data X fuel c data st = (Ok e, st') ->
            exists rq hist,
              sent (net st') = rq :: hist
              /\ req_method rq = POST /\ req_url rq = _label c
              /\ req_body rq = JsonBody (Some data)
              /\ _parse_response (serve X hist rq) = None
              /\ json (serve X hist rq) = VDict e).
  { intros data e st'. unfold create_from_data, bind.
    destruct (post X fuel (_label c) (Some data) None false st)
      as [[body|e0|] st0] eqn:Hpost; try discriminate.
    unfold lift_outcome. intros [= Hk <-].
    apply location_kwargs_ok in Hk. subst body.
    destruct (call_wrapped_ok_inv X fuel
                (Post (_label c) (Some data) None false) st st0 _ Hpost)
      as (tok & verify & hist & Hsent & Hp & Hv).
    eexists. exists hist. split; [exact Hsent|].
    repeat split; [exact Hp|]. symmetry. exact Hv. }
  split; [exact Hcreate|]. split; [|split; [|split]].
  - intros props attrs e st'. unfold create, bind. rewrite params_spec.
    apply Hcreate.
  - intros identity e st'. unfold read, bind.
    destruct (get X fuel (_subpath c ++ "/" ++ identity) None st)
      as [[body|e0|] st0] eqn:Hget; try discriminate.
    unfold lift_outcome. intros [= Hk <-].
    apply location_kwargs_ok in Hk. subst body.
    destruct (call_wrapped_ok_inv X fuel
                (Get (_subpath c ++ "/" ++ identity) None) st st0 _ Hget)
      as (tok & verify & hist & Hsent & Hp & Hv).
    eexists. exists hist. split; [exact Hsent|].
    repeat split; [exact Hp|]. symmetry. exact Hv.
  - intros data tok st1 e Hf Ha Ht rq rs Hp He.
    unfold create_from_data, bind, post.
    rewrite (retry_429_ok X fuel _ st (log_request rq st1) (VDict e) Hf).
    + reflexivity.
    + rewrite (post_call_json X st st1 tok _ _ _ Ha Ht).
      fold rq rs. unfold outcome_of. rewrite Hp, He. reflexivity.
  - intros identity tok st1 e Hf Ha Ht rq rs Hp He.
    unfold read, bind, get.
    rewrite (retry_429_ok X fuel _ st (keep_response X rs (log_request rq st1))
               (VDict e) Hf).
    + reflexivity.
    + rewrite (get_call_spec X st st1 tok _ _ Ha Ht).
      fold rq rs. unfold outcome_of. rewrite Hp, He. reflexivity.
Qed.

Lemma create_read_passthrough_witness :
  exists st1 st2,
    create_from_data (externals_of mismatch_server) 1 token_locations
      (<["display_name" := VStr "a"]> ∅) token_state
    = (Ok (location_named "a"), st1)
    /\ read (with_appidp_token (token_service 3 3600)
               (externals_of mismatch_server)) 1 token_locations
         "locations/1" (machine_state 0)
       = (Ok (location_named "b"), st2)
    /\ _auth (self st2) = VStr "fresh".
Proof.
  destruct (create_read_passthrough (externals_of mismatch_server) 1
              token_locations token_state)
    as (_ & _ & _ & Hc & _).
  destruct (create_read_passthrough
              (with_appidp_token (token_service 3 3600)
                 (externals_of mismatch_server)) 1
              token_locations (machine_state 0))
    as (_ & _ & _ & _ & Hr).
  eexists. eexists. split; [|split].
  - apply (Hc (<["display_name" := VStr "a"]> ∅) (VStr "tok") token_state
             (location_named "a")).
    + lia.
    + reflexivity.
    + right. exists "tok". reflexivity.
    + reflexivity.
    + reflexivity.
  - apply (Hr "locations/1" (VStr "fresh")
             (refreshed (machine_state 0) (VStr "fresh")
                {| clock := 1003; slept := 0; sent := [] |} 3600)
             (location_named "b")).
    + lia.
    + reflexivity.
    + right. exists "fresh". reflexivity.
    + reflexivity.
    + reflexivity.
  - reflexivity.
Defined.

(** C7 (as stated) fails.  Against a server that answers with an empty
    mapping, [create] returns an entity without "identity"; and
    against a server that answers the GET with another mapping than the
    POST, the entity read back under the identity of the created one
    differs from it. *)
Lemma create_read_counterexample :
  (exists st',
     create (externals_of (constant_server (VDict ∅))) 1
       token_locations (<["display_name" := VStr "a"]> ∅) None token_state
     = (Ok ∅, st')
     /\ (∅ : Location) !! "identity" = None)
  /\ exists created st1 reread st2,
       create (externals_of mismatch_server) 1 token_locations
         (<["display_name" := VStr "a"]> ∅) None token_state
       = (Ok created, st1)
       /\ created !! "identity" = Some (VStr "locations/1")
       /\ read (externals_of mismatch_server) 1 token_locations
            "locations/1" st1
          = (Ok reread, st2)
       /\ reread <> created.
Proof.
  split.
  - eexists. split; reflexivity.
  - do 4 eexists. split; [reflexivity|]. split; [reflexivity|].
    split; [reflexivity|].
    intros H. apply (f_equal (fun d : Dict => d !! "display_name")) in H.
    vm_compute in H. discriminate H.
Qed.

(** ** The caller's dictionaries *)

Section HeapProperties.

Context (X : Externals).

Lemma keeps_heap_bind {A B} (c : M State A) (k : A -> M State B) :
  keeps_heap c -> (forall a, keeps_heap (k a)) -> keeps_heap (bind c k).
Proof.
  intros Hc Hk st. unfold bind. specialize (Hc st).
  destruct (c st) as [[a|e|] st1]; cbn [snd] in *.
  - rewrite Hk. exact Hc.
  - exact Hc.
  - exact Hc.
Qed.

Lemma keeps_heap_try {A} (c : M State A) (handler : exn -> option (M State A)) :
  keeps_heap c ->
  (forall e h, handler e = Some h -> keeps_heap h) ->
  keeps_heap (try_except c handler).
Proof.
  intros Hc Hh st. unfold try_except. specialize (Hc st).
  destruct (c st) as [[a|e|] st1]; cbn [snd] in *; try exact Hc.
  destruct (handler e) as [h|] eqn:E; cbn [snd]; [|exact Hc].
  rewrite (Hh e h E). exact Hc.
Qed.

Lemma keeps_heap_ret {A} (a : A) : keeps_heap (ret a).
Proof. intros st. reflexivity. Qed.

Lemma keeps_heap_raise {A} (e : exn) : keeps_heap (@raise State A e).
Proof. intros st. reflexivity. Qed.

Lemma keeps_heap_gets {A} (f : State -> A) : keeps_heap (gets f).
Proof. intros st. reflexivity. Qed.

Lemma keeps_heap_lift {A} (o : outcome A) : keeps_heap (@lift_outcome State A o).
Proof. intros st. reflexivity. Qed.

Lemma keeps_heap_set_self (f : Archivist -> Archivist) :
  keeps_heap (modify (set_self f)).
Proof. intros st. reflexivity. Qed.

Lemma keeps_heap_set_net (f : Net -> Net) : keeps_heap (modify (set_net f)).
Proof. intros st. reflexivity. Qed.

Lemma keeps_heap_on_net {A} (c : M Net A) : keeps_heap (on_net c).
Proof. intros st. unfold on_net. destruct (c (net st)). reflexivity. Qed.

Lemma keeps_heap_on_client {A} (c : M (Archivist * Net) A) :
  keeps_heap (on_client c).
Proof.
  intros st. unfold on_client. destruct (c (self st, net st)) as [r [a n]].
  reflexivity.
Qed.

Lemma keeps_heap_session_call (req : Request) : keeps_heap (session_call X req).
Proof. intros st. reflexivity. Qed.

Lemma keeps_heap_raise_if (error : option exn) :
  keeps_heap (@raise_if State error).
Proof. destruct error; intros st; reflexivity. Qed.

Create HintDb keeps_heap.

#[local] Hint Resolve keeps_heap_ret keeps_heap_raise keeps_heap_gets
  keeps_heap_lift keeps_heap_set_self keeps_heap_set_net keeps_heap_on_net
  keeps_heap_on_client keeps_heap_session_call keeps_heap_raise_if
  : keeps_heap.

Ltac keeps_heap :=
  repeat first
    [ apply keeps_heap_bind; [|intros ?]
    | progress auto with keeps_heap
    | match goal with
      | |- keeps_heap (if ?b then _ else _) => destruct b
      | |- keeps_heap (match ?x with _ => _ end) => destruct x
      end ].

Lemma keeps_heap_auth : keeps_heap (auth X).
Proof. unfold auth, time. keeps_heap. Qed.

Lemma keeps_heap_add_headers (headers : option Dict) :
  keeps_heap (_add_headers X headers).
Proof.
  unfold _add_headers. apply keeps_heap_bind; [apply keeps_heap_auth|].
  intros tok. destruct tok; auto with keeps_heap.
Qed.

Lemma keeps_heap_post_call (url : string) (request headers : option Dict)
    (data : bool) :
  keeps_heap (post_call X url request headers data).
Proof.
  unfold post_call. apply keeps_heap_bind.
  - destruct data.
    + keeps_heap.
    + apply keeps_heap_bind; [apply keeps_heap_add_headers|]. intros h.
      keeps_heap.
  - intros r. keeps_heap.
Qed.

Lemma keeps_heap_retry_loop {A} (call : M State A) (n : nat) (ctx : RetryContext) :
  keeps_heap call -> keeps_heap (retry_loop X n ctx call).
Proof.
  intros Hc. revert ctx. induction n as [|n IH]; intros ctx; cbn [retry_loop].
  - auto with keeps_heap.
  - apply keeps_heap_try; [exact Hc|].
    intros e h He. destruct e; try discriminate He.
    injection He as <-. unfold time, sleep.
    apply keeps_heap_bind; [auto with keeps_heap|]. intros now.
    destruct (deadline ctx <? now); [auto with keeps_heap|].
    apply keeps_heap_bind; [auto with keeps_heap|]. intros _. apply IH.
Qed.

Lemma keeps_heap_retry_429 {A} (fuel : nat) (call : M State A) :
  keeps_heap call -> keeps_heap (retry_429 X fuel call).
Proof.
  intros Hc. unfold retry_429, time.
  apply keeps_heap_bind; [auto with keeps_heap|]. intros m.
  apply keeps_heap_bind; [auto with keeps_heap|]. intros now.
  apply keeps_heap_retry_loop, Hc.
Qed.

Lemma keeps_heap_create_from_data (fuel : nat) (c : _LocationsClient) (data : Dict) :
  keeps_heap (create_from_data X fuel c data).
Proof.
  unfold create_from_data, post. apply keeps_heap_bind.
  - apply keeps_heap_retry_429, keeps_heap_post_call.
  - intros body. auto with keeps_heap.
Qed.

Lemma keeps_heap_read_by_signature (c : _LocationsClient)
    (props attrs : option Dict) :
  keeps_heap (read_by_signature X c props attrs).
Proof. unfold read_by_signature, _LocationsClient__params. keeps_heap. Qed.

End HeapProperties.

Lemma insert_at_end {A} (l : list A) (x y : A) :
  <[length l := y]> (l ++ [x])%list = (l ++ [y])%list.
Proof. induction l as [|z l IH]; [reflexivity|]. simpl. f_equal. exact IH. Qed.

Lemma lookup_at_end {A} (l : list A) (x : A) :
  (l ++ [x])%list !! length l = Some x.
Proof. induction l as [|z l IH]; [reflexivity|]. exact IH. Qed.

Lemma set_heap_copy (st : State) (d : Dict) :
  set_heap (fun h => <[length (heap st) := base.delete "selector" d]> h)
    (set_heap (fun h => (h ++ [d])%list) st)
  = copied st d.
Proof.
  unfold set_heap, copied. cbn [self net heap]. rewrite insert_at_end.
  reflexivity.
Qed.

(** The first steps of [create_if_not_exists]: copy, pop, signature. *)
Lemma create_if_not_exists_start (X : Externals) (fuel : nat)
    (c : _LocationsClient) (data : nat) (st : State) (d : Dict) (sel : value) :
  heap st !! data = Some d ->
  d !! "selector" = Some sel ->
  create_if_not_exists X fuel c data st
  = match selector_signature X sel (base.delete "selector" d) with
    | Ok signature =>
        match read_by_signature X c signature.1 signature.2 (copied st d) with
        | (Ok location, st2) => (Ok (location, true), st2)
        | (Raise ArchivistNotFoundError, st2) =>
            with_flag false
              (create_from_data X fuel c
                 (default ∅ (heap st2 !! length (heap st))) st2)
        | (Raise e, st2) => (Raise e, st2)
        | (OutOfFuel, st2) => (OutOfFuel, st2)
        end
    | Raise e => (Raise e, copied st d)
    | OutOfFuel => (OutOfFuel, copied st d)
    end.
Proof.
  intros Hd Hsel.
  unfold create_if_not_exists, deepcopy, dict_pop, deref, bind, gets, modify,
    lift_outcome, getitem, ret.
  cbn [fst snd heap set_heap]. rewrite Hd. cbn [from_option id].
  rewrite !lookup_at_end. cbn [from_option id]. rewrite Hsel.
  rewrite !set_heap_copy.
  replace (heap (copied st d) !! length (heap st))
    with (Some (base.delete "selector" d))
    by (symmetry; apply lookup_at_end).
  cbn [from_option id].
  destruct (selector_signature X sel (base.delete "selector" d))
    as [signature| |]; try reflexivity.
  unfold try_except, bind, ret.
  destruct (read_by_signature X c signature.1 signature.2 (copied st d))
    as [[location|e|] st2]; try reflexivity.
  - destruct e; try reflexivity.
    unfold with_flag.
    destruct (create_from_data X fuel c
                (default ∅ (heap st2 !! length (heap st))) st2)
      as [[created| |] st3]; reflexivity.
Qed.

(** Whatever happens after the copy, the heap is the caller's heap followed
    by the copy without its selector. *)
Lemma create_if_not_exists_heap (X : Externals) (fuel : nat)
    (c : _LocationsClient) (data : nat) (st : State) (d : Dict) (sel : value) :
  heap st !! data = Some d ->
  d !! "selector" = Some sel ->
  heap (snd (create_if_not_exists X fuel c data st))
  = (heap st ++ [base.delete "selector" d])%list.
Proof.
  intros Hd Hsel.
  rewrite (create_if_not_exists_start X fuel c data st d sel Hd Hsel).
  destruct (selector_signature X sel (base.delete "selector" d))
    as [signature| |]; try reflexivity.
  pose proof (keeps_heap_read_by_signature X c signature.1 signature.2
                (copied st d)) as Hr.
  destruct (read_by_signature X c signature.1 signature.2 (copied st d))
    as [[location|e|] st2]; cbn [snd] in Hr; try exact Hr.
  destruct e; try exact Hr.
  unfold with_flag. cbn [snd]. rewrite keeps_heap_create_from_data. exact Hr.
Qed.

(** C10. [create_if_not_exists] works on a copy: every dictionary that the
    caller holds, the request body with its "selector" key among them, is
    afterwards what it was before, also when an exception is raised.  When
    the lookup by signature finds a location, that location comes back with
    [True] in the state that the lookup left: nothing is created.  When the
    lookup raises [ArchivistNotFoundError], the result is that of
    [create_from_data] on the copy without its selector, with [False]. *)
Theorem create_if_not_exists_frame (X : Externals) (fuel : nat)
    (c : _LocationsClient) (data : nat) (st : State) (d : Dict) (sel : value) :
  heap st !! data = Some d ->
  d !! "selector" = Some sel ->
  let result := create_if_not_exists X fuel c data st in
  let d' : Dict := base.delete "selector" d in
  heap (snd result) !! data = Some d
  /\ (forall ref, (ref < length (heap st))%nat ->
        heap (snd result) !! ref = heap st !! ref)
  /\ (forall props attrs location st2,
        selector_signature X sel d' = Ok (props, attrs) ->
        read_by_signature X c props attrs (copied st d) = (Ok location, st2) ->
        result = (Ok (location, true), st2))
  /\ (forall props attrs st2,
        selector_signature X sel d' = Ok (props, attrs) ->
        read_by_signature X c props attrs (copied st d)
        = (Raise ArchivistNotFoundError, st2) ->
        result = with_flag false (create_from_data X fuel c d' st2)).
Proof.
  intros Hd Hsel result d'.
  assert (Hframe : forall ref, (ref < length (heap st))%nat ->
            heap (snd result) !! ref = heap st !! ref).
  { intros ref Hlt. unfold result.
    rewrite (create_if_not_exists_heap X fuel c data st d sel Hd Hsel).
    apply lookup_app_l, Hlt. }
  split; [|split; [exact Hframe|split]].
  - rewrite Hframe; [exact Hd|]. apply lookup_lt_Some in Hd. exact Hd.
  - intros props attrs location st2 Hsig Hread. unfold result.
    rewrite (create_if_not_exists_start X fuel c data st d sel Hd Hsel).
    fold d'. rewrite Hsig. cbn [fst snd]. rewrite Hread. reflexivity.
  - intros props attrs st2 Hsig Hread. unfold result.
    rewrite (create_if_not_exists_start X fuel c data st d sel Hd Hsel).
    fold d'. rewrite Hsig. cbn [fst snd]. rewrite Hread.
    pose proof (keeps_heap_read_by_signature X c props attrs (copied st d))
      as Hr.
    rewrite Hread in Hr. cbn [snd] in Hr. rewrite Hr.
    unfold copied. cbn [heap set_heap]. rewrite lookup_at_end. reflexivity.
Qed.

Lemma create_if_not_exists_frame_witness :
  let result :=
    create_if_not_exists (externals_of (constant_server (VDict (location_named "a"))))
      1 token_locations 0%nat selector_state in
  heap (snd result) !! 0%nat = Some selector_data
  /\ selector_data !! "selector" = Some (VList [VStr "display_name"])
  /\ fst result = Ok (location_named "a", false).
Proof.
  destruct (create_if_not_exists_frame
              (externals_of (constant_server (VDict (location_named "a"))))
              1 token_locations 0%nat selector_state selector_data
              (VList [VStr "display_name"]) eq_refl eq_refl)
    as (Hdata & _ & _ & Hnew).
  split; [exact Hdata|]. split; [reflexivity|].
  rewrite (Hnew None None (copied selector_state selector_data) eq_refl eq_refl).
  reflexivity.
Defined.

(** ** The retry wrapper against a throttling server *)


Lemma plain_can_authorize (X : Externals) (a : Archivist) :
  plain_client a -> can_authorize X a.
Proof. intros [Hc Ht]. split; [exact Ht|left; exact Hc]. Qed.



Section Throttled.

Context (X : Externals) (N : nat) (retry : Z) (body : value).
Context (t : transport_call).

Hypothesis server :
  forall received req,
    serve X received req = throttling_server N retry body received req.






End Throttled.



(** ** The confirmation poller against a confirming server *)

Lemma plain_client_ring_buffer (buf : list Response) (a : Archivist) :
  plain_client a -> plain_client (with_ring_buffer buf a).
Proof. intros H. exact H. Qed.


Section Confirming.

Context (X : Externals) (fuel : nat) (K : nat) (entity : Dict).
Context (c : _LocationsClient) (identity : string).

Hypothesis server :
  forall received req,
    serve X received req = confirming_server K entity received req.
Hypothesis fuel_pos : (0 < fuel)%nat.







End Confirming.



(** ** The model at work on small inputs *)

Example retry_three_times :
  let result :=
    post (externals_of (throttling_server 3 2 (VDict ∅))) 10
      "https://app.rkvst.io/archivist/v2/locations" (Some ∅) None false
      token_state in
  fst result = Ok (VDict ∅)
  /\ length (sent (net (snd result))) = 4%nat
  /\ slept (net (snd result)) = 6
  /\ clock (net (snd result)) = 1006.
Proof. vm_compute. repeat split. Qed.

Example retry_gives_up :
  let result :=
    post (externals_of (throttling_server 3 2 (VDict ∅))) 10
      "https://app.rkvst.io/archivist/v2/locations" (Some ∅) None false
      (token_state_max_time 1) in
  fst result = Raise (RateLimitError (Some 2))
  /\ length (sent (net (snd result))) = 2%nat
  /\ slept (net (snd result)) = 2.
Proof. vm_compute. repeat split. Qed.

Example retry_out_of_fuel :
  fst (post (externals_of (throttling_server 3 2 (VDict ∅))) 3
         "https://app.rkvst.io/archivist/v2/locations" (Some ∅) None false
         token_state)
  = OutOfFuel.
Proof. vm_compute. reflexivity. Qed.

Example confirmation_after_two_pending :
  let X := externals_of (confirming_server 2 (location_named "a")) in
  let result :=
    wait_for_confirmation X 10 (read X 10 token_locations) "locations/1" None
      token_state in
  fst result = Ok (with_status CONFIRMATION_CONFIRMED (location_named "a"))
  /\ length (sent (net (snd result))) = 3%nat
  /\ slept (net (snd result)) = 2.
Proof. vm_compute. repeat split. Qed.

Example confirmation_timeout :
  let X := externals_of (confirming_server 3 (location_named "a")) in
  let result :=
    wait_for_confirmation X 10 (read X 10 token_locations) "locations/1"
      (Some 1) token_state in
  fst result = Raise ConfirmationTimeoutError
  /\ length (sent (net (snd result))) = 2%nat
  /\ clock (net (snd result)) = 1002.
Proof. vm_compute. repeat split. Qed.

Example strip_token : strip "  tok
" = "tok".
Proof. reflexivity. Qed.

Example root_of_url :
  join SEP ["https://app.rkvst.io"; ROOT] = "https://app.rkvst.io/archivist".
Proof. reflexivity. Qed.

(** * Further properties of the code *)

(** ** The [auth] property of a client with credentials *)

Lemma is_None_true (v : value) : is_None v = true -> v = VNone.
Proof. destruct v; try discriminate. reflexivity. Qed.

Lemma init_machine (url cid sec : string) (fixtures : option Dict)
    (verify : bool) (max_time : Z) (n n' : Net) (a : Archivist) :
  Archivist_init url (AuthMachine cid sec) fixtures verify max_time n
  = (Ok a, n') ->
  n' = n /\ _auth a = VNone /\ _client_id a = Some cid
  /\ _client_secret a = Some sec /\ _expires_at a = 0.
Proof.
  unfold Archivist_init, ArchivistPublic_init, bind, ret, raise.
  destruct (endswith url "/"); [discriminate|].
  intros [= <- <-]. repeat split.
Qed.

(** X1. A client built from a [(client_id, client_secret)] pair holds no
    token and the constructor fetches none; its first access of [auth] at a
    positive time calls the token service with the pair, returns the token
    of the answer and stores it with the expiry instant: the time after the
    fetch plus the reported [expires_in] minus 10 seconds. *)
Theorem first_auth_fetches_token (X : Externals) (url cid sec : string)
    (fixtures : option Dict) (verify : bool) (max_time : Z) (n n' : Net)
    (a : Archivist) (st : State) (apptoken : Dict) (n1 : Net) (tok : value)
    (e : Z) :
  Archivist_init url (AuthMachine cid sec) fixtures verify max_time n
  = (Ok a, n') ->
  self st = a ->
  0 < clock (net st) ->
  appidp_token X a cid (Some sec) (net st) = (Ok apptoken, n1) ->
  apptoken !! "access_token" = Some tok ->
  is_None tok = false ->
  apptoken !! "expires_in" = Some (VNum e) ->
  n' = n /\ _auth a = VNone
  /\ exists st',
       auth X st = (Ok tok, st')
       /\ net st' = n1
       /\ _auth (self st') = tok
       /\ _expires_at (self st') = clock n1 + e - 10
       /\ _client_id (self st') = Some cid.
Proof.
  intros Hinit <- Hpos Hfetch Htok Hnone Hexp.
  destruct (init_machine _ _ _ _ _ _ _ _ _ Hinit)
    as (-> & Hauth & Hcid & Hsec & Hexpires).
  split; [reflexivity|]. split; [exact Hauth|].
  exists (refreshed st tok n1 e). split.
  - apply (auth_refresh X st cid apptoken n1 tok e Hcid); try assumption.
    + rewrite Hexpires. exact Hpos.
    + rewrite Hsec. exact Hfetch.
  - cbn. repeat split. exact Hcid.
Qed.

Lemma first_auth_fetches_token_witness :
  exists st',
    auth (machine_externals 3 3600)
      (set_self (with_auth VNone) (machine_state 0))
    = (Ok (VStr "fresh"), st')
    /\ _expires_at (self st') = 1003 + 3600 - 10.
Proof.
  destruct (first_auth_fetches_token (machine_externals 3 3600)
              "https://app.rkvst.io" "id" "secret" None true MAX_TIME net0 net0
              (with_auth VNone (machine_client 0))
              (set_self (with_auth VNone) (machine_state 0))
              (<["access_token" := VStr "fresh"]>
                 (<["expires_in" := VNum 3600]> ∅))
              {| clock := 1003; slept := 0; sent := [] |} (VStr "fresh") 3600
              eq_refl eq_refl eq_refl eq_refl eq_refl eq_refl eq_refl)
    as (_ & _ & st' & Hrun & _ & _ & Hexp & _).
  exists st'. split; [exact Hrun|exact Hexp].
Defined.

(** X2. When the answer of the token service has no "access_token" (or has
    [None] there), [auth] raises [ArchivistError]; by then the stored token
    has been overwritten with [None], and the stored expiry is what it was,
    so the token the client held before is lost. *)
Theorem auth_invalid_token (X : Externals) (st : State) (cid : string)
    (apptoken : Dict) (n1 : Net) :
  _client_id (self st) = Some cid ->
  _expires_at (self st) < clock (net st) ->
  appidp_token X (self st) cid (_client_secret (self st)) (net st)
  = (Ok apptoken, n1) ->
  is_None (dict_get apptoken "access_token") = true ->
  exists st',
    auth X st
    = (Raise (ArchivistError "Auth token from client id,secret is invalid"),
       st')
    /\ _auth (self st') = VNone
    /\ _expires_at (self st') = _expires_at (self st)
    /\ net st' = n1.
Proof.
  intros Hc Hlt Hf Hn.
  exists {| self := with_auth VNone (self st); net := n1; heap := heap st |}.
  split; [|repeat split].
  unfold auth, bind, gets, time, ret, on_net, modify, lift_outcome, raise.
  simpl. rewrite Hc.
  destruct (Z.ltb_spec (_expires_at (self st)) (clock (net st))); [|lia].
  rewrite Hf. simpl. rewrite Hn. rewrite (is_None_true _ Hn). reflexivity.
Qed.

Lemma auth_invalid_token_witness :
  exists st',
    auth (with_appidp_token token_service_no_token
            (externals_of (constant_server (VDict ∅))))
      (machine_state 0)
    = (Raise (ArchivistError "Auth token from client id,secret is invalid"),
       st')
    /\ _auth (self (machine_state 0)) = VStr "tok"
    /\ _auth (self st') = VNone.
Proof.
  destruct (auth_invalid_token
              (with_appidp_token token_service_no_token
                 (externals_of (constant_server (VDict ∅))))
              (machine_state 0) "id" (<["expires_in" := VNum 3600]> ∅) net0
              eq_refl eq_refl eq_refl eq_refl)
    as (st' & Hrun & Hauth & _).
  exists st'. split; [exact Hrun|]. split; [reflexivity|exact Hauth].
Defined.

(** X3. When the answer of the token service has a token but no
    "expires_in", [auth] raises [KeyError]; the new token is stored all the
    same, with the old expiry instant, so the next access fetches again. *)
Theorem auth_missing_expiry (X : Externals) (st : State) (cid : string)
    (apptoken : Dict) (n1 : Net) (tok : value) :
  _client_id (self st) = Some cid ->
  _expires_at (self st) < clock (net st) ->
  appidp_token X (self st) cid (_client_secret (self st)) (net st)
  = (Ok apptoken, n1) ->
  apptoken !! "access_token" = Some tok ->
  is_None tok = false ->
  apptoken !! "expires_in" = None ->
  exists st',
    auth X st = (Raise (KeyError "expires_in"), st')
    /\ _auth (self st') = tok
    /\ _expires_at (self st') = _expires_at (self st)
    /\ _client_id (self st') = Some cid
    /\ net st' = n1.
Proof.
  intros Hc Hlt Hf Ht Hn He.
  exists {| self := with_auth tok (self st); net := n1; heap := heap st |}.
  split; [|repeat split; exact Hc].
  unfold auth, bind, gets, time, ret, on_net, modify, lift_outcome, raise,
    getitem, dict_get.
  simpl. rewrite Hc.
  destruct (Z.ltb_spec (_expires_at (self st)) (clock (net st))); [|lia].
  rewrite Hf. simpl. rewrite Ht, Hn, He. reflexivity.
Qed.

Lemma auth_missing_expiry_witness :
  exists st',
    auth (with_appidp_token token_service_no_expiry
            (externals_of (constant_server (VDict ∅))))
      (machine_state 0)
    = (Raise (KeyError "expires_in"), st')
    /\ _auth (self st') = VStr "fresh"
    /\ _expires_at (self st') = 0.
Proof.
  destruct (auth_missing_expiry
              (with_appidp_token token_service_no_expiry
                 (externals_of (constant_server (VDict ∅))))
              (machine_state 0) "id" (<["access_token" := VStr "fresh"]> ∅)
              net0 (VStr "fresh") eq_refl eq_refl eq_refl eq_refl eq_refl
              eq_refl)
    as (st' & Hrun & Hauth & Hexp & _).
  exists st'. split; [exact Hrun|]. split; [exact Hauth|exact Hexp].
Defined.




(** ** Headers and the verbs as written *)

(** X5. The headers that [_add_headers] returns are the caller's, entry by
    entry, except for "authorization": with a token string that entry is
    set to the bearer value, replacing what the caller had put there; with
    no token the caller's headers come back as they are. *)
Theorem add_headers_keeps_caller_headers (X : Externals)
    (headers : option Dict) (st st1 : State) (h : Dict) :
  _add_headers X headers st = (Ok h, st1) ->
  exists tok,
    auth X st = (Ok tok, st1)
    /\ (forall k, k <> "authorization" -> h !! k = default ∅ headers !! k)
    /\ (tok = VNone -> h = default ∅ headers)
    /\ (forall s, tok = VStr s ->
          h !! "authorization" = Some (VStr ("Bearer " ++ strip s))).
Proof.
  unfold _add_headers, bind.
  destruct (auth X st) as [[tok| |] st0]; try discriminate.
  destruct tok; unfold ret, raise; try discriminate; intros [= <- <-];
    eexists; (split; [reflexivity|]).
  - split; [|split].
    + intros k _. destruct headers; reflexivity.
    + intros _. destruct headers; reflexivity.
    + intros s0 Hs. discriminate Hs.
  - split; [|split; [discriminate|]].
    + intros k Hk. rewrite lookup_insert_ne by congruence.
      destruct headers; reflexivity.
    + intros s0 [= <-]. apply lookup_insert_eq.
Qed.

Lemma add_headers_keeps_caller_headers_witness :
  exists h,
    _add_headers (externals_of (constant_server (VDict ∅)))
      (Some (<["authorization" := VStr "Basic abc"]>
               (<["X-Request-Total-Count" := VStr "true"]> ∅)))
      token_state
    = (Ok h, token_state)
    /\ h !! "X-Request-Total-Count" = Some (VStr "true")
    /\ h !! "authorization" = Some (VStr "Bearer tok").
Proof.
  destruct (add_headers_keeps_caller_headers
              (externals_of (constant_server (VDict ∅)))
              (Some (<["authorization" := VStr "Basic abc"]>
                       (<["X-Request-Total-Count" := VStr "true"]> ∅)))
              token_state token_state
              (<["authorization" := VStr "Bearer tok"]>
                 (<["X-Request-Total-Count" := VStr "true"]> ∅)))
    as (tok & Hauth & Hkeep & _ & Hbearer).
  - vm_compute. reflexivity.
  - exists (<["authorization" := VStr "Bearer tok"]>
              (<["X-Request-Total-Count" := VStr "true"]> ∅)).
    split; [vm_compute; reflexivity|]. split.
    + rewrite (Hkeep "X-Request-Total-Count") by discriminate. reflexivity.
    + apply (Hbearer "tok").
      assert (H : auth (externals_of (constant_server (VDict ∅))) token_state
                  = (Ok (VStr "tok"), token_state)) by reflexivity.
      rewrite H in Hauth. injection Hauth as <-. reflexivity.
Defined.

(** X6. [post_file], [delete] and [patch] put the response they receive
    into the ring buffer before they look at its status: the buffer after
    the call is the buffer before it with the response appended on the
    left, also when the call raises the error of the response, and it never
    holds more than [maxlen] responses. *)
Theorem verbs_record_every_response (X : Externals) (t : transport_call)
    (st st1 : State) (tok : value) :
  match t with
  | PostFile _ _ _ _ _ | Delete _ _ | Patch _ _ _ => True
  | _ => False
  end ->
  auth X st = (Ok tok, st1) ->
  str_or_none tok ->
  exists req st',
    let response := serve X (sent (net st1)) req in
    call_once X t st = (outcome_of response, st')
    /\ sent (net st') = req :: sent (net st1)
    /\ _response_ring_buffer (self st')
       = appendleft (RING_BUFFER_MAX_LEN X) response
           (_response_ring_buffer (self st))
    /\ (length (_response_ring_buffer (self st')) <= RING_BUFFER_MAX_LEN X)%nat
    /\ ((0 < RING_BUFFER_MAX_LEN X)%nat ->
        head (_response_ring_buffer (self st')) = Some response).
Proof.
  intros Ht Ha Hs.
  pose proof (auth_ring_buffer X st) as Hb. rewrite Ha in Hb. cbn [snd] in Hb.
  destruct t as [url request headers data|url fd mtype form params|url headers
                |url request headers|url headers]; try contradiction;
    cbn [call_once].
  - rewrite (post_file_call_spec X st st1 _ url fd mtype form params Ha Hs).
    do 2 eexists. split; [reflexivity|]. split; [reflexivity|]. cbn.
    rewrite Hb. split; [reflexivity|].
    split; [apply appendleft_length|apply appendleft_head].
  - rewrite (delete_call_spec X st st1 _ url headers Ha Hs).
    do 2 eexists. split; [reflexivity|]. split; [reflexivity|]. cbn.
    rewrite Hb. split; [reflexivity|].
    split; [apply appendleft_length|apply appendleft_head].
  - rewrite (patch_call_spec X st st1 _ url request headers Ha Hs).
    do 2 eexists. split; [reflexivity|]. split; [reflexivity|]. cbn.
    rewrite Hb. split; [reflexivity|].
    split; [apply appendleft_length|apply appendleft_head].
Qed.

Lemma verbs_record_every_response_witness :
  exists st',
    delete_call (externals_of (status_server 404))
      "https://app.rkvst.io/archivist/v2/locations/1" None token_state
    = (Raise ArchivistNotFoundError, st')
    /\ _response_ring_buffer (self st')
       = [ {| status_code := 404; resp_headers := ∅; json := VNone |} ].
Proof.
  destruct (verbs_record_every_response (externals_of (status_server 404))
              (Delete "https://app.rkvst.io/archivist/v2/locations/1" None)
              token_state token_state (VStr "tok") I eq_refl)
    as (req & st' & Hrun & _ & Hbuf & _).
  - right. exists "tok". reflexivity.
  - exists st'. split; [exact Hrun|exact Hbuf].
Defined.

(** X7. When the [auth] property fails, or yields a token that is neither a
    string nor [None], a POST in JSON mode, a file upload, a DELETE and a
    PATCH raise before the session is called: the call ends in the state
    that [auth] left, with no request sent and no response recorded. *)
Theorem no_request_without_token (X : Externals) (t : transport_call)
    (st st1 : State) (e : exn) :
  match t with
  | Post _ _ _ data => data = false
  | PostFile _ _ _ _ _ | Delete _ _ | Patch _ _ _ => True
  | Get _ _ => False
  end ->
  (auth X st = (Raise e, st1)
   \/ exists tok, auth X st = (Ok tok, st1)
                  /\ ~ str_or_none tok /\ e = AttributeError) ->
  call_once X t st = (Raise e, st1).
Proof.
  intros Ht Ha.
  assert (Hh : forall headers, _add_headers X headers st = (Raise e, st1)).
  { intros headers. unfold _add_headers, bind.
    destruct Ha as [->|(tok & -> & Hn & ->)]; [reflexivity|].
    destruct tok; try reflexivity.
    - exfalso. apply Hn. left. reflexivity.
    - exfalso. apply Hn. right. eexists. reflexivity. }
  destruct t as [url request headers data|url fd mtype form params|url headers
                |url request headers|url headers]; try contradiction;
    cbn [call_once].
  - subst data. unfold post_call, bind. rewrite Hh. reflexivity.
  - unfold post_file_call, bind. rewrite Hh. reflexivity.
  - unfold delete_call, bind. rewrite Hh. reflexivity.
  - unfold patch_call, bind. rewrite Hh. reflexivity.
Qed.

Lemma no_request_without_token_witness :
  patch_call (with_appidp_token token_service_down
                (externals_of (constant_server (VDict ∅))))
    "https://app.rkvst.io/archivist/v2/locations/1" ∅ None (machine_state 0)
  = (Raise ServerError, machine_state 0)
  /\ sent (net (machine_state 0)) = [].
Proof.
  split; [|reflexivity].
  apply (no_request_without_token
           (with_appidp_token token_service_down
              (externals_of (constant_server (VDict ∅))))
           (Patch "https://app.rkvst.io/archivist/v2/locations/1" ∅ None)
           (machine_state 0) (machine_state 0) ServerError I).
  left. reflexivity.
Defined.

(** ** Copies of a client *)


(** Reading [auth] changes nothing of the client but the token and its
    expiry instant. *)
Lemma auth_configuration (X : Externals) (st : State) :
  let a' := self (snd (auth X st)) in
  _url a' = _url (self st) /\ _root a' = _root (self st)
  /\ inherited a' = inherited (self st)
  /\ _client_id a' = _client_id (self st)
  /\ _client_secret a' = _client_secret (self st).
Proof.
  unfold auth, bind, gets, time, ret, on_net, modify, lift_outcome, raise.
  simpl.
  destruct (_client_id (self st)) as [cid|] eqn:Hc;
    [|repeat split; simpl; congruence].
  destruct (_expires_at (self st) <? clock (net st));
    [|repeat split; simpl; congruence].
  destruct (appidp_token X (self st) cid (_client_secret (self st)) (net st))
    as [[apptoken| |] n1]; simpl; try (repeat split; simpl; congruence).
  destruct (is_None (dict_get apptoken "access_token")); simpl;
    [repeat split; simpl; congruence|].
  destruct (getitem apptoken "expires_in") as [ev| |]; simpl;
    try (repeat split; simpl; congruence).
  destruct (add_num (clock n1) ev); repeat split; simpl; congruence.
Qed.

Lemma copy_spec (X : Externals) (st st1 : State) (tok : value) :
  endswith (_url (self st)) "/" = false ->
  auth X st = (Ok tok, st1) ->
  Archivist_copy X st
  = (Ok {| inherited := {| _fixtures := _fixtures (self st);
                           _verify := _verify (self st);
                           _max_time := _max_time (self st);
                           _response_ring_buffer := [] |};
           _auth := tok; _client_id := None; _client_secret := None;
           _expires_at := 0; _url := _url (self st);
           _root := _url (self st) ++ "/archivist" |},
     st1).
Proof.
  intros Hurl Ha.
  pose proof (auth_configuration X st) as Hcfg. rewrite Ha in Hcfg.
  cbn [snd] in Hcfg. destruct Hcfg as (_ & _ & Hinh & _ & _).
  unfold Archivist_copy, bind, gets. cbn [fst snd]. rewrite Ha.
  unfold on_net, Archivist_of_token, Archivist_init, ArchivistPublic_init,
    bind, ret, raise.
  rewrite Hinh.
  destruct tok; rewrite Hurl; cbn; unfold set_net; rewrite state_eta;
    reflexivity.
Qed.

(** X8. [__copy__] reads the [auth] property, refreshing the original if its
    token has expired, and builds a client with the same URL, root,
    fixtures, [verify] and [max_time]; the URL of a constructed client has
    no trailing "/", so the constructor call of the copy cannot fail on it.
    The copy holds the token as a plain value: it has no client id and no
    client secret, and its ring buffer is empty. *)
Theorem copy_configuration (X : Externals) (st st1 : State) (tok : value) :
  endswith (_url (self st)) "/" = false ->
  auth X st = (Ok tok, st1) ->
  exists a',
    Archivist_copy X st = (Ok a', st1)
    /\ _url a' = _url (self st)
    /\ _root a' = _url (self st) ++ "/archivist"
    /\ _fixtures a' = _fixtures (self st)
    /\ _verify a' = _verify (self st)
    /\ _max_time a' = _max_time (self st)
    /\ _auth a' = tok
    /\ _client_id a' = None /\ _client_secret a' = None
    /\ _response_ring_buffer a' = [].
Proof.
  intros Hurl Ha. eexists. split; [apply (copy_spec X st st1 tok Hurl Ha)|].
  repeat split.
Qed.

Lemma copy_configuration_witness :
  exists a' st1,
    Archivist_copy (machine_externals 3 3600) (machine_state 0) = (Ok a', st1)
    /\ _url a' = "https://app.rkvst.io"
    /\ _auth a' = VStr "fresh"
    /\ _client_id a' = None
    /\ _auth (self st1) = VStr "fresh".
Proof.
  destruct (copy_configuration (machine_externals 3 3600) (machine_state 0)
              (refreshed (machine_state 0) (VStr "fresh")
                 {| clock := 1003; slept := 0; sent := [] |} 3600)
              (VStr "fresh") eq_refl eq_refl)
    as (a' & Hrun & Hurl & _ & _ & _ & _ & Hauth & Hcid & _).
  exists a'. eexists. split; [exact Hrun|]. repeat split; assumption.
Defined.

(** X9. The copy of a client with credentials never refreshes: in every
    state in which the copy is found while it is used, at any later time
    and whatever the token service would answer, an access of [auth]
    returns the token that the original held when the copy was made, and
    changes nothing. *)
Theorem copy_never_refreshes (X X' : Externals) (st st1 st2 : State)
    (tok : value) (a' : Archivist) :
  endswith (_url (self st)) "/" = false ->
  auth X st = (Ok tok, st1) ->
  Archivist_copy X st = (Ok a', st1) ->
  in_use X' a' st2 ->
  auth X' st2 = (Ok tok, st2).
Proof.
  intros Hurl Ha Hcopy Huse.
  rewrite (copy_spec X st st1 tok Hurl Ha) in Hcopy.
  injection Hcopy as Ha'.
  assert (Hfields : _client_id a' = None /\ _auth a' = tok)
    by (rewrite <- Ha'; split; reflexivity).
  destruct Hfields as [Hc <-]. apply auth_in_use; assumption.
Qed.

Lemma copy_never_refreshes_witness :
  let X := machine_externals 3 3600 in
  let copy : Archivist :=
    {| inherited := {| _fixtures := ∅; _verify := true; _max_time := MAX_TIME;
                       _response_ring_buffer := [] |};
       _auth := VStr "fresh"; _client_id := None; _client_secret := None;
       _expires_at := 0; _url := "https://app.rkvst.io";
       _root := "https://app.rkvst.io/archivist" |} in
  let later : State :=
    set_net (advance (10 ^ 9))
      (snd (delete X 1 "https://app.rkvst.io/archivist/v2/locations/1" None
              {| self := copy; net := net0; heap := [] |})) in
  _response_ring_buffer (self later) = [response_ok (VDict ∅)]
  /\ auth X later = (Ok (VStr "fresh"), later).
Proof.
  intros X copy later. split; [reflexivity|].
  apply (copy_never_refreshes X X (machine_state 0)
           (refreshed (machine_state 0) (VStr "fresh")
              {| clock := 1003; slept := 0; sent := [] |} 3600)
           later (VStr "fresh") copy eq_refl eq_refl eq_refl).
  apply in_use_net.
  apply (in_use_call X copy 1
           (Delete "https://app.rkvst.io/archivist/v2/locations/1" None)).
  apply (in_use_fresh X copy net0 []).
Defined.

(** ** The locations client *)





(** X11. Without a "selector" key in the data, [create_if_not_exists] raises
    [KeyError] right after the copy: nothing is looked up, nothing is sent,
    the client and the caller's dictionaries are as before. *)
Theorem create_if_not_exists_no_selector (X : Externals) (fuel : nat)
    (c : _LocationsClient) (data : nat) (st : State) (d : Dict) :
  heap st !! data = Some d ->
  d !! "selector" = None ->
  exists st',
    create_if_not_exists X fuel c data st = (Raise (KeyError "selector"), st')
    /\ self st' = self st
    /\ net st' = net st
    /\ (forall ref, (ref < length (heap st))%nat ->
          heap st' !! ref = heap st !! ref).
Proof.
  intros Hd Hsel.
  exists (set_heap (fun h => (h ++ [d])%list) st). split.
  - unfold create_if_not_exists, deepcopy, dict_pop, deref, bind, gets, modify,
      lift_outcome, getitem, ret.
    cbn [fst snd heap set_heap]. rewrite Hd. cbn [from_option id].
    rewrite !lookup_at_end. cbn [from_option id]. rewrite Hsel. reflexivity.
  - repeat split. intros ref Hlt. cbn. apply lookup_app_l, Hlt.
Qed.

Lemma create_if_not_exists_no_selector_witness :
  exists st',
    create_if_not_exists (externals_of (constant_server (VDict ∅))) 1
      token_locations 0%nat no_selector_state
    = (Raise (KeyError "selector"), st')
    /\ net st' = net0.
Proof.
  destruct (create_if_not_exists_no_selector
              (externals_of (constant_server (VDict ∅))) 1 token_locations
              0%nat no_selector_state
              (<["display_name" := VStr "Macclesfield"]> ∅) eq_refl eq_refl)
    as (st' & Hrun & _ & Hnet & _).
  exists st'. split; [exact Hrun|exact Hnet].
Defined.

(** X12. [create_if_not_exists] creates only after a lookup that ended in
    [ArchivistNotFoundError]: when [selector_signature] raises, or when the
    lookup by signature raises any other error, that error is the result
    and no location is created. *)
Theorem create_if_not_exists_other_errors (X : Externals) (fuel : nat)
    (c : _LocationsClient) (data : nat) (st : State) (d : Dict) (sel : value)
    (e : exn) :
  heap st !! data = Some d ->
  d !! "selector" = Some sel ->
  (selector_signature X sel (base.delete "selector" d) = Raise e ->
   create_if_not_exists X fuel c data st = (Raise e, copied st d))
  /\ (forall props attrs st2,
        selector_signature X sel (base.delete "selector" d)
        = Ok (props, attrs) ->
        read_by_signature X c props attrs (copied st d) = (Raise e, st2) ->
        e <> ArchivistNotFoundError ->
        create_if_not_exists X fuel c data st = (Raise e, st2)).
Proof.
  intros Hd Hsel. split.
  - intros Hsig.
    rewrite (create_if_not_exists_start X fuel c data st d sel Hd Hsel), Hsig.
    reflexivity.
  - intros props attrs st2 Hsig Hread Hne.
    rewrite (create_if_not_exists_start X fuel c data st d sel Hd Hsel), Hsig.
    cbn [fst snd]. rewrite Hread. destruct e; try reflexivity.
    contradiction.
Qed.

Lemma create_if_not_exists_other_errors_witness :
  let X := with_get_by_signature (fun _ _ _ => raise PermissionError)
             (externals_of (constant_server (VDict ∅))) in
  create_if_not_exists X 1 token_locations 0%nat selector_state
  = (Raise PermissionError, copied selector_state selector_data)
  /\ sent (net (copied selector_state selector_data)) = [].
Proof.
  intros X. split; [|reflexivity].
  destruct (create_if_not_exists_other_errors X 1 token_locations 0%nat
              selector_state selector_data (VList [VStr "display_name"])
              PermissionError eq_refl eq_refl)
    as [_ Hlookup].
  apply (Hlookup None None (copied selector_state selector_data) eq_refl
           eq_refl).
  discriminate.
Defined.

Lemma create_from_data_run_auth (X : Externals) (fuel : nat)
    (c : _LocationsClient) (data : Dict) (st st1 : State) (tok : value) :
  (0 < fuel)%nat ->
  auth X st = (Ok tok, st1) ->
  str_or_none tok ->
  let rq := json_post_request (_label c) (Some data)
              (bearer_headers tok None) (_verify (self st1)) in
  let rs := serve X (sent (net st1)) rq in
  status_code rs <> 429 ->
  create_from_data X fuel c data st
  = (match outcome_of rs with
     | Ok body => Location_kwargs body
     | Raise e => Raise e
     | OutOfFuel => OutOfFuel
     end, log_request rq st1).
Proof.
  intros Hf Ha Ht rq rs Hs. unfold create_from_data, bind, post.
  rewrite (retry_429_outcome X fuel _ st (log_request rq st1) rs Hf Hs).
  - destruct (outcome_of rs); reflexivity.
  - apply (post_call_json X st st1 tok _ _ _ Ha Ht).
Qed.

(** After an access of [auth] the network is as it was, or as the token
    service left it. *)
Lemma auth_net (X : Externals) (st : State) :
  net (snd (auth X st)) = net st
  \/ exists cid sec,
       _client_id (self st) = Some cid
       /\ net (snd (auth X st)) = snd (appidp_token X (self st) cid sec (net st)).
Proof.
  unfold auth, bind, gets, time, ret, on_net, modify, lift_outcome, raise.
  simpl.
  destruct (_client_id (self st)) as [cid|]; [|left; reflexivity].
  destruct (_expires_at (self st) <? clock (net st)); [|left; reflexivity].
  right. exists cid, (_client_secret (self st)). split; [reflexivity|].
  destruct (appidp_token X (self st) cid (_client_secret (self st)) (net st))
    as [[apptoken| |] n1]; simpl; try reflexivity.
  destruct (is_None (dict_get apptoken "access_token")); simpl; [reflexivity|].
  destruct (getitem apptoken "expires_in") as [ev| |]; simpl; try reflexivity.
  destruct (add_num (clock n1) ev); reflexivity.
Qed.

Section NoSelector.

Context (X : Externals).

Lemma sends_no_selector_auth (st : State) :
  sends_no_selector X st -> sends_no_selector X (snd (auth X st)).
Proof.
  intros [Hlog Htok].
  destruct (auth_configuration X st) as (_ & _ & _ & Hid & _).
  split.
  - destruct (auth_net X st) as [->|(cid & sec & Hc & ->)]; [exact Hlog|].
    destruct Htok as [Hn|Hs]; [congruence|]. apply Hs, Hlog.
  - destruct Htok as [Hn|Hs]; [left; congruence|right; exact Hs].
Qed.

Lemma sends_no_selector_post_call (url : string) (body : Dict) (headers : option Dict)
    (st : State) :
  body !! "selector" = None ->
  sends_no_selector X st ->
  sends_no_selector X (snd (post_call X url (Some body) headers false st)).
Proof.
  intros Hbody Hclean.
  pose proof (sends_no_selector_auth st Hclean) as Hauth.
  change (post_call X url (Some body) headers false)
    with (call_once X (Post url (Some body) headers false)).
  destruct (auth X st) as [r st1] eqn:Ha. cbn [snd] in Hauth.
  assert (Hfail : forall r',
            sends_no_selector X (snd (r' : outcome value, st1)))
    by (intros r'; exact Hauth).
  destruct r as [tok| |].
  - destruct (str_or_none_dec tok) as [Ht|Ht].
    + rewrite (call_once_run X (Post url (Some body) headers false) st st1 tok eq_refl Ha Ht).
      cbn [records snd request_of]. destruct Hauth as [Hlog Htok].
      split; [|exact Htok]. cbn. constructor; [|exact Hlog].
      intros (b & [Hb|Hb] & [v Hv]); cbn in Hb; [|discriminate].
      injection Hb as <-. congruence.
    + rewrite (call_once_fail X (Post url (Some body) headers false) st st1 (Ok tok) eq_refl Ha Ht). apply Hfail.
  - rewrite (call_once_fail X (Post url (Some body) headers false) st st1 (Raise e) eq_refl Ha I). apply Hfail.
  - rewrite (call_once_fail X (Post url (Some body) headers false) st st1 OutOfFuel eq_refl Ha I). apply Hfail.
Qed.

Lemma sends_no_selector_create_from_data (fuel : nat) (c : _LocationsClient) (body : Dict)
    (st : State) :
  body !! "selector" = None ->
  sends_no_selector X st ->
  sends_no_selector X (snd (create_from_data X fuel c body st)).
Proof.
  intros Hbody Hclean.
  assert (H : sends_no_selector X
                (snd (post X fuel (_label c) (Some body) None false st))).
  { unfold post.
    apply (retry_429_invariant X (sends_no_selector X)); [| |exact Hclean].
    - intros s Hs. apply sends_no_selector_post_call; assumption.
    - intros s d Hs. exact Hs. }
  unfold create_from_data, bind.
  destruct (post X fuel (_label c) (Some body) None false st)
    as [[v|e|] st']; exact H.
Qed.

End NoSelector.

(** X13. When [create_if_not_exists] creates, what it posts is the caller's
    data without the "selector" key and with every other entry unchanged.
    The selector is never sent: if no request of the session carried one
    when the lookup ended, none does after the call, however often the POST
    is retried, as long as the token service (when the client has a client
    id) sends none either.  And when [auth] then yields a token and the
    answer is not a 429, the call sends exactly one request, the POST of
    that body to the locations URL. *)
Theorem create_if_not_exists_body (X : Externals) (fuel : nat)
    (c : _LocationsClient) (data : nat) (st st2 : State) (d : Dict)
    (sel : value) (props attrs : option Dict) :
  heap st !! data = Some d ->
  d !! "selector" = Some sel ->
  selector_signature X sel (base.delete "selector" d) = Ok (props, attrs) ->
  read_by_signature X c props attrs (copied st d)
  = (Raise ArchivistNotFoundError, st2) ->
  let result := create_if_not_exists X fuel c data st in
  let body : Dict := base.delete "selector" d in
  body !! "selector" = None
  /\ (forall k, k <> "selector" -> body !! k = d !! k)
  /\ (_client_id (self st2) = None \/ token_service_sends_no_selector X ->
      Forall (fun rq => ~ carries_selector rq) (sent (net st2)) ->
      Forall (fun rq => ~ carries_selector rq) (sent (net (snd result))))
  /\ (forall tok st3,
        (0 < fuel)%nat ->
        auth X st2 = (Ok tok, st3) ->
        str_or_none tok ->
        let rq := json_post_request (_label c) (Some body)
                    (bearer_headers tok None) (_verify (self st3)) in
        status_code (serve X (sent (net st3)) rq) <> 429 ->
        sent (net (snd result)) = rq :: sent (net st3)).
Proof.
  intros Hd Hsel Hsig Hread result body.
  assert (Hresult : result = with_flag false (create_from_data X fuel c body st2)).
  { unfold result.
    rewrite (create_if_not_exists_start X fuel c data st d sel Hd Hsel), Hsig.
    cbn [fst snd]. rewrite Hread.
    pose proof (keeps_heap_read_by_signature X c props attrs (copied st d))
      as Hr.
    rewrite Hread in Hr. cbn [snd] in Hr. rewrite Hr.
    unfold copied. cbn [heap set_heap]. rewrite lookup_at_end. reflexivity. }
  assert (Hnone : body !! "selector" = None) by apply lookup_delete_eq.
  split; [exact Hnone|].
  split; [intros k Hk; apply lookup_delete_ne; congruence|]. split.
  - intros Htok Hlog. rewrite Hresult. unfold with_flag. cbn [snd].
    apply (sends_no_selector_create_from_data X fuel c body st2 Hnone).
    split; assumption.
  - intros tok st3 Hf Ha Ht rq Hs. rewrite Hresult. unfold with_flag.
    cbn [snd].
    rewrite (create_from_data_run_auth X fuel c body st2 st3 tok Hf Ha Ht Hs).
    reflexivity.
Qed.

Lemma create_if_not_exists_body_witness :
  let X := with_appidp_token (token_service 3 3600)
             (externals_of (throttling_server 2 2 (VDict ∅))) in
  let result :=
    create_if_not_exists X 5 (LocationsClient_init (machine_client 0)) 0%nat
      {| self := machine_client 0; net := net0; heap := [selector_data] |} in
  Forall (fun rq => ~ carries_selector rq) (sent (net (snd result)))
  /\ length (sent (net (snd result))) = 3%nat.
Proof.
  intros X result.
  destruct (create_if_not_exists_body X 5
              (LocationsClient_init (machine_client 0)) 0%nat
              {| self := machine_client 0; net := net0;
                 heap := [selector_data] |}
              (copied {| self := machine_client 0; net := net0;
                         heap := [selector_data] |} selector_data)
              selector_data (VList [VStr "display_name"]) None None
              eq_refl eq_refl eq_refl eq_refl)
    as (_ & _ & Hnever & _).
  split; [|reflexivity].
  apply Hnever.
  - right. intros a cid sec n Hlog. exact Hlog.
  - constructor.
Defined.

(** X14. The request parameters that the locations client builds treat
    [None] and the empty mapping alike, for the properties and for the
    attributes: without (non-empty) attributes the parameters handed to
    [_deepmerge] are the properties, or the empty mapping; with them, the
    attributes go under "attributes", replacing what the properties had
    there, and every other property is kept.  Building them changes no
    state. *)
Theorem params_of_props_and_attrs (X : Externals) (props attrs : option Dict)
    (st : State) :
  exists params : Dict,
    _LocationsClient__params X props attrs st
    = (Ok (_deepmerge X (dict_get (_fixtures (self st)) LOCATIONS_LABEL) params),
       st)
    /\ (truthy attrs = false -> params = default ∅ props)
    /\ (truthy attrs = true ->
        params !! "attributes" = Some (VDict (default ∅ attrs)))
    /\ (forall k, k <> "attributes" -> params !! k = default ∅ props !! k)
    /\ (props = None \/ props = Some ∅ -> attrs = None \/ attrs = Some ∅ ->
        params = ∅).
Proof.
  assert (Hprops : (if truthy props then default ∅ props else (∅ : Dict))
                   = default ∅ props).
  { destruct props as [m|]; [|reflexivity]. cbn [truthy default from_option id].
    destruct (bool_decide (m = ∅)) eqn:E; [|reflexivity].
    apply bool_decide_eq_true in E. subst m. reflexivity. }
  eexists. split; [reflexivity|]. rewrite Hprops.
  split; [|split; [|split]].
  - intros ->. reflexivity.
  - intros ->. apply lookup_insert_eq.
  - intros k Hk. destruct (truthy attrs); [|reflexivity].
    apply lookup_insert_ne. congruence.
  - intros Hp Ha.
    assert (truthy attrs = false) as ->.
    { destruct Ha as [->| ->]; reflexivity. }
    destruct Hp as [->| ->]; reflexivity.
Qed.

Lemma params_of_props_and_attrs_witness :
  fst (_LocationsClient__params (externals_of (constant_server (VDict ∅)))
         (Some (<["attributes" := VStr "old"]>
                  (<["display_name" := VStr "a"]> ∅)))
         (Some (<["director" := VStr "john smith"]> ∅))
         token_state)
  = Ok (<["attributes" := VDict (<["director" := VStr "john smith"]> ∅)]>
          (<["display_name" := VStr "a"]> ∅))
  /\ fst (_LocationsClient__params (externals_of (constant_server (VDict ∅)))
            (Some ∅) (Some ∅) token_state)
     = Ok ∅.
Proof.
  split.
  - destruct (params_of_props_and_attrs
                (externals_of (constant_server (VDict ∅)))
                (Some (<["attributes" := VStr "old"]>
                         (<["display_name" := VStr "a"]> ∅)))
                (Some (<["director" := VStr "john smith"]> ∅))
                token_state)
      as (params & Hrun & _ & Hattrs & Hkeep & _).
    rewrite Hrun. cbn [fst externals_of _deepmerge]. f_equal.
    apply map_eq. intros k.
    destruct (decide (k = "attributes")) as [->|Hk].
    + rewrite Hattrs by reflexivity. rewrite lookup_insert_eq. reflexivity.
    + rewrite (Hkeep k Hk). rewrite !lookup_insert_ne by congruence.
      cbn [default from_option id]. rewrite lookup_insert_ne by congruence.
      reflexivity.
  - destruct (params_of_props_and_attrs
                (externals_of (constant_server (VDict ∅))) (Some ∅) (Some ∅)
                token_state)
      as (params & Hrun & _ & _ & _ & Hempty).
    rewrite Hrun. cbn [fst externals_of _deepmerge]. f_equal.
    apply Hempty; right; reflexivity.
Defined.

(** X15. A location is built from a mapping only.  When [auth] yields a
    token and the body of the server's good answer to the POST is not a JSON
    object, [create_from_data] raises [TypeError] with the request sent;
    and when the lookup by signature returns something that is not a
    mapping, [read_by_signature] raises [TypeError]. *)
Theorem location_needs_mapping (X : Externals) (fuel : nat)
    (c : _LocationsClient) (st : State) (body : value) :
  (forall d, body <> VDict d) ->
  (forall data tok st1,
      (0 < fuel)%nat ->
      auth X st = (Ok tok, st1) ->
      str_or_none tok ->
      let rq := json_post_request (_label c) (Some data)
                  (bearer_headers tok None) (_verify (self st1)) in
      outcome_of (serve X (sent (net st1)) rq) = Ok body ->
      create_from_data X fuel c data st = (Raise TypeError, log_request rq st1))
  /\ (forall props attrs a' n',
        get_by_signature X (_label c) LOCATIONS_LABEL
          (location_params X (self st) props attrs) (self st, net st)
        = (Ok body, (a', n')) ->
        read_by_signature X c props attrs st
        = (Raise TypeError, {| self := a'; net := n'; heap := heap st |})).
Proof.
  intros Hbody.
  assert (Hkw : Location_kwargs body = Raise TypeError).
  { destruct body; try reflexivity. exfalso. eapply Hbody. reflexivity. }
  split.
  - intros data tok st1 Hf Ha Ht rq Hok.
    destruct (outcome_of_ok _ _ Hok) as [Hp _].
    rewrite (create_from_data_run_auth X fuel c data st st1 tok Hf Ha Ht
               (parsed_not_429 _ Hp)).
    fold rq. rewrite Hok, Hkw. reflexivity.
  - intros props attrs a' n' Hget.
    unfold read_by_signature, bind. rewrite params_spec.
    unfold on_client. rewrite Hget. unfold lift_outcome. rewrite Hkw.
    reflexivity.
Qed.

Lemma location_needs_mapping_witness :
  exists st',
    create_from_data (with_appidp_token (token_service 3 3600)
                        (externals_of (constant_server (VList [])))) 1
      token_locations (<["display_name" := VStr "a"]> ∅) (machine_state 0)
    = (Raise TypeError, st')
    /\ length (sent (net st')) = 1%nat.
Proof.
  destruct (location_needs_mapping
              (with_appidp_token (token_service 3 3600)
                 (externals_of (constant_server (VList [])))) 1
              token_locations (machine_state 0) (VList []))
    as [Hcreate _].
  - intros d. discriminate.
  - eexists. split.
    + apply (Hcreate (<["display_name" := VStr "a"]> ∅) (VStr "fresh")
               (refreshed (machine_state 0) (VStr "fresh")
                  {| clock := 1003; slept := 0; sent := [] |} 3600)).
      * lia.
      * reflexivity.
      * right. exists "fresh". reflexivity.
      * reflexivity.
    + reflexivity.
Defined.

(** X16. When the token service itself fails, [auth] raises its error and
    the client keeps the token and the expiry it had; only the network is
    as the service left it. *)
Theorem auth_fetch_error (X : Externals) (st : State) (cid : string)
    (e : exn) (n1 : Net) :
  _client_id (self st) = Some cid ->
  _expires_at (self st) < clock (net st) ->
  appidp_token X (self st) cid (_client_secret (self st)) (net st)
  = (Raise e, n1) ->
  auth X st = (Raise e, {| self := self st; net := n1; heap := heap st |}).
Proof.
  intros Hc Hlt Hf.
  unfold auth, bind, gets, time, ret, on_net, modify, lift_outcome, raise.
  simpl. rewrite Hc.
  destruct (Z.ltb_spec (_expires_at (self st)) (clock (net st))); [|lia].
  rewrite Hf. reflexivity.
Qed.

Lemma auth_fetch_error_witness :
  auth (with_appidp_token token_service_down
          (externals_of (constant_server (VDict ∅))))
    (machine_state 0)
  = (Raise ServerError, machine_state 0)
  /\ _auth (self (machine_state 0)) = VStr "tok".
Proof.
  split; [|reflexivity].
  apply (auth_fetch_error
           (with_appidp_token token_service_down
              (externals_of (constant_server (VDict ∅))))
           (machine_state 0) "id" ServerError net0 eq_refl eq_refl eq_refl).
Defined.
